(** * api_service/api/service.py: correlation store, query streaming,
      sitemap normalisation and the scrape-and-ingest generator.

    The development follows the Python module top to bottom.  Python values
    that the module only passes around keep the shape they have there:
    strings are [string], the request body is a dictionary from field name
    to string, the storage of [QueryStorage] is a dictionary from query
    identifier to the stored value, and [text_dict] is an insertion-ordered
    dictionary, written as an association list with unique keys. *)

From Stdlib Require Import Strings.String Strings.Ascii Numbers.DecimalString.
From stdpp Require Import gmap strings list.

(** ** Python primitives used by the module *)

(** The exceptions that occur in the module. *)
Inductive exn :=
  | HTTPException (status_code : nat) (detail : string)
  | TypeError (msg : string)
  | IndexError (msg : string)
  | KeyError (key : string)
  | CancelledError
  | GeneratorExit
  | Exception (msg : string).

(** A computation that returns or raises. *)
Inductive result (A : Type) :=
  | Return (a : A)
  | Raise (e : exn).
Arguments Return {A} a.
Arguments Raise {A} e.

#[global] Instance result_bind : MBind result := λ A B f m,
  match m with
  | Return a => f a
  | Raise e => Raise e
  end.

(** [needle in s] on strings: [needle] occurs somewhere in [s]. *)
Fixpoint str_in (needle s : string) : bool :=
  if String.prefix needle s then true
  else match s with
       | EmptyString => false
       | String _ s' => str_in needle s'
       end.

(** [s.startswith(p)]. *)
Definition startswith (s p : string) : bool := String.prefix p s.

(** The last character of [s], if there is one. *)
Fixpoint last_char (s : string) : option ascii :=
  match s with
  | EmptyString => None
  | String c EmptyString => Some c
  | String _ s' => last_char s'
  end.

(** [s[-1]]: raises [IndexError] on the empty string. *)
Definition str_index_last (s : string) : result ascii :=
  match last_char s with
  | Some c => Return c
  | None => Raise (IndexError "string index out of range")
  end.

(** [s.split('/')]. *)
Fixpoint split_slash (s : string) : list string :=
  match s with
  | EmptyString => [EmptyString]
  | String c s' =>
      if Ascii.eqb c "/" then EmptyString :: split_slash s'
      else match split_slash s' with
           | h :: t => String c h :: t
           | [] => [String c EmptyString]
           end
  end.

(** [l[n]] on a list: raises [IndexError] out of range. *)
Definition list_index {A} (l : list A) (n : nat) : result A :=
  match l !! n with
  | Some a => Return a
  | None => Raise (IndexError "list index out of range")
  end.

(** [str(n)] for a non-negative integer. *)
Definition str_of_nat (n : nat) : string :=
  NilEmpty.string_of_uint (Nat.to_uint n).

(** The line feed that ends every progress line. *)
Definition nl : string := String "010" EmptyString.

(** Truth value of an optional string: [None] and [""] are false. *)
Definition truthy (v : option string) : bool :=
  match v with
  | None => false
  | Some EmptyString => false
  | Some _ => true
  end.

(** ** class QueryStorage *)

(** Values held by the storage and handed to [get_urls]. *)
Inductive pyval :=
  | PyNone
  | PyList (urls : list string).

(** The lock makes each method one atomic transition of [_storage]; a
    method is a function from the storage before to the storage after. *)

(** [__init__]: [self._storage = {}]. *)
Definition QueryStorage_init : gmap string pyval := ∅.

(** [store_query]: [self._storage[query_id] = urls]. *)
Definition store_query (_storage : gmap string pyval)
    (query_id : string) (urls : list string) : gmap string pyval :=
  <[query_id := PyList urls]> _storage.

(** [retrieve_query]: [return self._storage.pop(query_id, [])]. *)
Definition retrieve_query (_storage : gmap string pyval)
    (query_id : string) : pyval * gmap string pyval :=
  (default (PyList []) (_storage !! query_id), delete query_id _storage).

(** ** GET /get_urls/{query_id} *)

Inductive body :=
  | BodyError (error : string)
  | BodyUrls (urls : list string).

(** An HTTP response: status code and JSON body.  A dictionary returned
    from a handler is sent with status 200. *)
Record response := JSONResponse { status_code : nat; content : body }.

Definition get_urls (_storage : gmap string pyval) (query_id : string)
    : response * gmap string pyval :=
  let '(urls, _storage') := retrieve_query _storage query_id in
  match urls with
  | PyNone =>
      (JSONResponse 404 (BodyError "URLs not available yet or invalid query ID"),
       _storage')
  | PyList urls => (JSONResponse 200 (BodyUrls urls), _storage')
  end.

(** What the docstring of [get_urls] promises for an identifier without
    URLs: an error message with a 404 status code. *)
Definition not_available (r : response) : Prop :=
  status_code r = 404 ∧ ∃ msg, content r = BodyError msg.

(** ** process_streaming_response *)

(** The generator is a state machine: it has not started, it is suspended
    at its [yield] with the rest of [response_gen] still to come, or it
    has finished.  The consumer resumes it with [Next] (ask for the next
    item) or [Throw e] (raise [e] at the point where it is suspended). *)
Inductive gen_state :=
  | NotStarted (response_gen : list (option string))
  | AtYield (rest : list (option string))
  | Finished.

Inductive signal :=
  | Next
  | Throw (e : exn).

Inductive gen_reply :=
  | Yielded (text : string)
  | StopIteration
  | Raised (e : exn).

(** The [for] loop from its current position up to the next [yield]:
    items that are [None] or empty fail the test [if text] and are passed
    over. *)
Fixpoint advance (response_gen : list (option string)) : gen_reply * gen_state :=
  match response_gen with
  | [] => (StopIteration, Finished)
  | text :: rest =>
      if truthy text then (Yielded (default EmptyString text), AtYield rest)
      else advance rest
  end.

(** One resumption.  The [yield] is inside the [try], so an exception
    thrown there meets [except asyncio.CancelledError]: a cancellation is
    handled and the generator runs to its end, any other exception leaves
    it.  An exception thrown before the first resumption is raised at the
    top of the body, outside the [try].  An asynchronous generator that
    has finished answers every resumption, a request or a throw, with the
    end of the iteration. *)
Definition resume (st : gen_state) (sig : signal) : gen_reply * gen_state :=
  match st, sig with
  | NotStarted response_gen, Next => advance response_gen
  | NotStarted _, Throw e => (Raised e, Finished)
  | AtYield rest, Next => advance rest
  | AtYield _, Throw CancelledError => (StopIteration, Finished)
  | AtYield _, Throw e => (Raised e, Finished)
  | Finished, _ => (StopIteration, Finished)
  end.

(** The consumer sends the signals [sigs] one after the other; the
    replies are collected in order. *)
Fixpoint run (sigs : list signal) (st : gen_state) : list gen_reply * gen_state :=
  match sigs with
  | [] => ([], st)
  | sig :: sigs' =>
      let '(r, st') := resume st sig in
      let '(rs, st'') := run sigs' st' in
      (r :: rs, st'')
  end.

(** The items that pass the test [if text], in order. *)
Definition non_empty_tokens (response_gen : list (option string)) : list string :=
  omap (λ text, if truthy text then text else None) response_gen.

(** ** check_required *)

Definition missing_required_field (key : string) : exn :=
  HTTPException 400 ("Missing required field: '" +:+ key +:+ "'").

Fixpoint check_required_loop (data : gmap string string) (keys : list string)
    : result unit :=
  match keys with
  | [] => Return ()
  | key :: keys' =>
      if negb (truthy (data !! key)) then Raise (missing_required_field key)
      else check_required_loop data keys'
  end.

(** The source runs the same loop twice. *)
Definition check_required (data : gmap string string) (keys : list string)
    : result unit :=
  _ ← check_required_loop data keys;
  check_required_loop data keys.

(** The status FastAPI sends for the outcome of a handler: the code of an
    [HTTPException], 500 for any other exception that leaves the handler,
    200 otherwise. *)
Definition http_status {A} (r : result A) : nat :=
  match r with
  | Return _ => 200
  | Raise (HTTPException status_code _) => status_code
  | Raise _ => 500
  end.

(** ** Sitemap normalisation (lines 402-410, repeated at 463-470) *)

Definition sitemap_url (website : string) : result string :=
  let sitemap := website in
  let sitemap :=
    if negb (str_in "https://" sitemap) then "https://" +:+ website
    else sitemap in
  if negb (str_in "sitemap.xml" sitemap) then
    c ← str_index_last sitemap;
    if negb (Ascii.eqb c "/") then Return (sitemap +:+ "/sitemap.xml")
    else Return (sitemap +:+ "sitemap.xml")
  else Return sitemap.

(** The normalisation as the specification words it: the test of the
    first step is on the scheme as a prefix of the string. *)
Definition ends_with_slash (s : string) : bool :=
  match last_char s with
  | Some c => Ascii.eqb c "/"
  | None => false
  end.

Definition sitemap_url_spec (website : string) : string :=
  let s := if String.prefix "https://" website then website
           else "https://" +:+ website in
  if str_in "sitemap.xml" s then s
  else if ends_with_slash s then s +:+ "sitemap.xml"
  else s +:+ "/sitemap.xml".

(** ** Collaborators *)

(** What [helper.scrape_link(item)] does: it returns a dictionary or
    raises an [Exception] whose [str] is the given description. *)
Inductive scrape_outcome :=
  | Scraped (scraped_data : gmap string string)
  | ScrapeFault (description : string).

(** The module [helper], which is imported and not part of this file.
    [streaming_response] is the object [query_weaviate] returns.  The
    rows of [attribute_dict['df']] are what [get_sitemap_attributes]
    gives.  [scrape_link] depends on the network: its first argument is
    the ordinal of the call within the run.  [store_to_weaviate] is given
    by the progress updates it yields. *)
Class Helper := {
  streaming_response : Type;
  response_gen : streaming_response → list (option string);
  query_weaviate : string → string → string → streaming_response;
  extract_document_urls : streaming_response → list string;
  get_sitemap_attributes : string → list string;
  scrape_link : nat → string → scrape_outcome;
  save_to_gcloud : list (string * string) → string → bool;
  download_blob_from_gcloud : string → bool;
  store_to_weaviate : string → list string;
}.

(** What the Python runtime supplies: [str(uuid.uuid4())],
    [datetime.now().strftime('%Y-%m-%dT%H-%M-%S')] and [repr] of a
    string (the [str] of a [KeyError]). *)
Class Runtime := {
  uuid4 : string;
  strftime_now : string;
  repr : string → string;
}.

(** ** process_url_extraction *)

(** The body of the loop: append [url] unless it is already there. *)
Definition unique_step (unique_urls : list string) (url : string) : list string :=
  if decide (url ∈ unique_urls) then unique_urls else unique_urls ++ [url].

Definition unique_loop (extracted_urls : list string) : list string :=
  foldl unique_step [] extracted_urls.

Definition process_url_extraction `{Helper} (query_id : string)
    (streaming_response : streaming_response)
    (query_storage : gmap string pyval) : gmap string pyval :=
  let extracted_urls := extract_document_urls streaming_response in
  let unique_urls := unique_loop extracted_urls in
  store_query query_storage query_id unique_urls.

(** Position of the first occurrence of [u] in [l] ([length l] when
    there is none). *)
Fixpoint first_index (u : string) (l : list string) : nat :=
  match l with
  | [] => 0
  | x :: l' => if decide (x = u) then 0 else S (first_index u l')
  end.

(** ** POST /rag_query *)

(** What the handler hands back: the [X-Query-ID] header, the generator
    that makes the body, and the background task, which runs on the
    storage once the response has been sent. *)
Record rag_response := {
  x_query_id : string;
  body_gen : gen_state;
  background : gmap string pyval → gmap string pyval;
}.

Definition rag_query `{Helper} `{Runtime} (data : gmap string string)
    : result rag_response :=
  _ ← check_required data ["website"; "timestamp"; "query"];
  let website := default EmptyString (data !! "website") in
  let timestamp := default EmptyString (data !! "timestamp") in
  let query := default EmptyString (data !! "query") in
  let query_id := uuid4 in
  let streaming_response := query_weaviate website timestamp query in
  Return {| x_query_id := query_id;
            body_gen := NotStarted (response_gen streaming_response);
            background := process_url_extraction query_id streaming_response |}.

(** ** POST /scrape_sitemap *)

(** What a run of the generator does, in the order in which it does it:
    lines it yields to the response, lines it prints on the standard
    output of the server, and calls into [helper]. *)
Inductive event :=
  | Yield (line : string)
  | Print (line : string)
  | CallScrapeLink (item : string)
  | CallSaveToGcloud (df : list (string * string)) (output_file : string)
  | CallDownloadBlob (output_file : string)
  | CallStoreToWeaviate (output_file : string).

(** The progress stream the caller receives: the yielded lines. *)
Definition stream (events : list event) : list string :=
  omap (λ ev, match ev with Yield line => Some line | _ => None end) events.

(** The calls to the blob store and to the vector store. *)
Definition is_persist (ev : event) : bool :=
  match ev with CallSaveToGcloud _ _ | CallDownloadBlob _ => true | _ => false end.

Definition is_ingest (ev : event) : bool :=
  match ev with CallStoreToWeaviate _ => true | _ => false end.

Definition store_calls (events : list event) : list event :=
  filter (λ ev, is_persist ev || is_ingest ev) events.

(** The links that were handed to [scrape_link]. *)
Definition scrape_calls (events : list event) : list string :=
  omap (λ ev, match ev with CallScrapeLink item => Some item | _ => None end) events.

(** The tables that were handed to [save_to_gcloud]. *)
Definition saved_tables (events : list event) : list (list (string * string)) :=
  omap (λ ev, match ev with CallSaveToGcloud df _ => Some df | _ => None end) events.

(** [text_dict[k] = v]: a present key keeps its place and takes the new
    value, a new key goes to the end. *)
Fixpoint dict_set (d : list (string * string)) (k v : string) : list (string * string) :=
  match d with
  | [] => [(k, v)]
  | (k', v') :: d' =>
      if String.eqb k' k then (k, v) :: d' else (k', v') :: dict_set d' k v
  end.

(** The lines of the stream. *)
Definition line_zero_pages (sitemap : string) : string :=
  "Found 0 pages to scrape in " +:+ sitemap +:+ nl.
Definition line_page (i total : nat) (item : string) : string :=
  str_of_nat i +:+ " of " +:+ str_of_nat total +:+ ": " +:+ item +:+ nl.
Definition line_failed (item e : string) : string :=
  "Failed to scrape " +:+ item +:+ ": " +:+ e +:+ nl.
Definition line_saved : string := "Finished saving to GCP Bucket" +:+ nl.
Definition line_chunking : string :=
  "Chunking and preparing documents to insert into vector store." +:+ nl.
Definition line_download_error : string :=
  "Error occured while downloading file to gcloud bucket." +:+ nl.
Definition line_not_completed (sitemap : string) : string :=
  "The scraping process did not complete as expected for " +:+ sitemap +:+ nl.
Definition line_completed : string := "All steps completed successfully." +:+ nl.

(** The variables of the [for] loop and what the run has done so far. *)
Record loop_state := {
  text_dict : list (string * string);
  loop_i : nat;
  events : list event;
}.

(** [item] after the test for a relative link. *)
Definition qualify (website_name item : string) : string :=
  if startswith item "/" then "https://" +:+ website_name +:+ item else item.

(** The [try] block: the text that goes into [text_dict], or the [str]
    of the exception that [except Exception as e] catches.
    [scraped_data[item]] raises a [KeyError] when the key is missing. *)
Definition try_scrape `{Helper} `{Runtime} (i : nat) (item : string) : string + string :=
  match scrape_link i item with
  | Scraped scraped_data =>
      match scraped_data !! item with
      | Some text => inl text
      | None => inr (repr item)
      end
  | ScrapeFault e => inr e
  end.

(** One iteration of the [for] loop. *)
Definition scrape_step `{Helper} `{Runtime} (website_name : string) (total : nat)
    (st : loop_state) (item : string) : loop_state :=
  let item := qualify website_name item in
  let i := S (loop_i st) in
  let announced := events st ++ [Yield (line_page i total item); CallScrapeLink item] in
  match try_scrape i item with
  | inl text =>
      {| text_dict := dict_set (text_dict st) item text;
         loop_i := i; events := announced |}
  | inr e =>
      {| text_dict := text_dict st; loop_i := i;
         events := announced ++ [Yield (line_failed item e)] |}
  end.

Definition scrape_loop `{Helper} `{Runtime} (website_name : string)
    (pages : list string) : loop_state :=
  foldl (scrape_step website_name (length pages))
        {| text_dict := []; loop_i := 0; events := [] |} pages.

(** [f"{website_name}_{timestamp}.csv"]. *)
Definition output_file `{Runtime} (website_name : string) : string :=
  let timestamp := strftime_now in
  website_name +:+ "_" +:+ timestamp +:+ ".csv".

(** What happens after the loop, up to the last line. *)
Definition persist_and_ingest `{Helper} `{Runtime} (sitemap website_name : string)
    (text_dict : list (string * string)) : list event :=
  let df := text_dict in
  let output_file := output_file website_name in
  CallSaveToGcloud df output_file ::
  if save_to_gcloud df output_file then
    Yield line_saved :: CallDownloadBlob output_file ::
    if download_blob_from_gcloud output_file then
      Yield line_chunking :: CallStoreToWeaviate output_file ::
      (Yield <$> store_to_weaviate output_file)
    else [Print line_download_error]
  else [Yield (line_not_completed sitemap)].

(** The generator [scraping_process], run to its end. *)
Definition scraping_process `{Helper} `{Runtime} (sitemap website_name : string)
    (pages : list string) : list event :=
  (if length pages =? 0 then [Yield (line_zero_pages sitemap)]
   else
     let st := scrape_loop website_name pages in
     events st ++ persist_and_ingest sitemap website_name (text_dict st))
  ++ [Yield line_completed].

(** The handler: the events of the streamed response, or the exception
    that leaves the handler before there is a response. *)
Definition scrape_sitemap `{Helper} `{Runtime} (data : gmap string string)
    : result (list event) :=
  sitemap ← match data !! "text" with
            | None => Raise (TypeError "argument of type 'NoneType' is not iterable")
            | Some sitemap => sitemap_url sitemap
            end;
  let pages := get_sitemap_attributes sitemap in
  let link_split := split_slash sitemap in
  website_name ← list_index link_split 2;
  Return (scraping_process sitemap website_name pages).

(** ** Sample collaborators, for the examples *)

(** A [helper] whose sitemap has the given pages, whose [bad]-th call of
    [scrape_link] fails, and whose blob store answers as told. *)
Definition sample_helper (pages : list string) (bad : nat)
    (save_ok download_ok : bool) : Helper := {|
  streaming_response := list (option string) * list string;
  response_gen := fst;
  query_weaviate := λ _ _ _,
    ([Some "RAG"; None; Some EmptyString; Some " works"],
     ["https://a.io/1"; "https://a.io/2"; "https://a.io/1"]);
  extract_document_urls := snd;
  get_sitemap_attributes := λ _, pages;
  scrape_link := λ i item,
    if i =? bad then ScrapeFault "timed out"
    else Scraped {[ item := "text of " +:+ item ]};
  save_to_gcloud := λ _ _, save_ok;
  download_blob_from_gcloud := λ _, download_ok;
  store_to_weaviate := λ _, ["Inserted 2 documents" +:+ nl];
|}.

Definition sample_runtime : Runtime := {|
  uuid4 := "7f9c24e8-3b12-4fef-91e0-5f0d1d6a2b10";
  strftime_now := "2023-10-06T18-11-24";
  repr := λ s, "'" +:+ s +:+ "'";
|}.

Definition sample_pages : list string :=
  ["https://a.io/1"; "/2"; "https://a.io/3"].

(** The run of the generator for the sample pages of
    ["https://a.io/sitemap.xml"]. *)
Definition sample_run (bad : nat) (save_ok download_ok : bool) : list event :=
  @scraping_process (sample_helper sample_pages bad save_ok download_ok)
    sample_runtime "https://a.io/sitemap.xml" "a.io" sample_pages.

(** ** Sequences of calls on the storage *)

(** A call of one of the two methods of [QueryStorage]. *)
Inductive storage_op :=
  | StoreQuery (query_id : string) (urls : list string)
  | RetrieveQuery (query_id : string).

Definition op_query_id (op : storage_op) : string :=
  match op with
  | StoreQuery query_id _ => query_id
  | RetrieveQuery query_id => query_id
  end.

Definition apply_op (_storage : gmap string pyval) (op : storage_op)
    : gmap string pyval :=
  match op with
  | StoreQuery query_id urls => store_query _storage query_id urls
  | RetrieveQuery query_id => (retrieve_query _storage query_id).2
  end.

(** The storage after the calls [ops], made in that order. *)
Definition apply_ops (ops : list storage_op) (_storage : gmap string pyval)
    : gmap string pyval :=
  foldl apply_op _storage ops.

(** ** What the consumer of a generator has received *)

(** The items among the replies. *)
Definition yielded (replies : list gen_reply) : list string :=
  omap (λ r, match r with Yielded text => Some text | _ => None end) replies.

(** The text of a streamed body: its chunks, one after the other. *)
Definition body_text (chunks : list string) : string :=
  foldr String.append EmptyString chunks.

(** The text of what [response_gen] produces, [None] counting for
    nothing. *)
Definition produced_text (response_gen : list (option string)) : string :=
  body_text (default EmptyString <$> response_gen).

(** ** GET /sitemap *)

(** The values of the dictionaries of the endpoint. *)
Inductive json :=
  | JInt (n : Z)
  | JStr (s : string).

(** The dictionary that [helper.get_sitemap_attributes] returns. *)
Record attribute_dict := {
  status : Z;
  df : list string;
  nested_flag : json;
  message : json;
}.

(** [helper.get_sitemap_attributes] with its whole result; its ['df']
    is what the class [Helper] gives for the same sitemap. *)
Class SitemapAttributes `{Helper} := {
  get_sitemap_attributes_dict : string → attribute_dict;
  get_sitemap_attributes_df sitemap :
    df (get_sitemap_attributes_dict sitemap) = get_sitemap_attributes sitemap;
}.

(** The handler of the dry run; [df.shape[0]] is the number of rows. *)
Definition sitemap `{SitemapAttributes} (website : string) : result (gmap string json) :=
  sitemap ← sitemap_url website;
  let attribute_dict := get_sitemap_attributes_dict sitemap in
  let response_dict : gmap string json := ∅ in
  if (status attribute_dict =? 0)%Z then
    let response_dict := <["status" := JInt 0]> response_dict in
    let response_dict :=
      <["count" := JInt (Z.of_nat (length (df attribute_dict)))]> response_dict in
    let response_dict := <["nested_flag" := nested_flag attribute_dict]> response_dict in
    let response_dict := <["message" := message attribute_dict]> response_dict in
    Return response_dict
  else
    let response_dict := <["status" := JInt 1]> response_dict in
    let response_dict := <["message" := message attribute_dict]> response_dict in
    let response_dict := <["nested_flag" := nested_flag attribute_dict]> response_dict in
    Return response_dict.

(** ** The lines and the rows of one page *)

(** What the iteration for the page at position [j] (from 0) yields. *)
Definition page_lines `{Helper} `{Runtime} (website_name : string) (total : nat)
    (j : nat) (page : string) : list string :=
  let item := qualify website_name page in
  line_page (S j) total item ::
  match try_scrape (S j) item with
  | inl _ => []
  | inr e => [line_failed item e]
  end.

(** The row that the iteration for the page at position [j] writes. *)
Definition page_row `{Helper} `{Runtime} (website_name : string)
    (j : nat) (page : string) : option (string * string) :=
  let item := qualify website_name page in
  match try_scrape (S j) item with
  | inl text => Some (item, text)
  | inr _ => None
  end.

(** A sample of [SitemapAttributes]: the sitemap was read, or not. *)
Definition sample_attributes (pages : list string) (sitemap_status : Z)
    : @SitemapAttributes (sample_helper pages 0 true true) :=
  @Build_SitemapAttributes (sample_helper pages 0 true true)
    (λ _, {| status := sitemap_status; df := pages; nested_flag := JInt 0;
             message := JStr "Processed sitemap" |})
    (λ _, eq_refl).

(** * Theorems *)

(** ** Correlation store and URL lookup *)

(** C1 (the code departs from it): for an identifier that is absent from
    the storage, [get_urls] answers with status 200 and the body
    [{"urls": []}], leaves the storage as it is, and the answer is not the
    404 "not available" response of its docstring; the same answer comes
    for an identifier that a previous lookup has just consumed. *)
Theorem get_urls_absent_is_success (_storage : gmap string pyval) (query_id : string) :
  _storage !! query_id = None →
  get_urls _storage query_id = (JSONResponse 200 (BodyUrls []), _storage)
  ∧ ¬ not_available (get_urls _storage query_id).1
  ∧ ∀ st, (get_urls (get_urls st query_id).2 query_id).1
          = JSONResponse 200 (BodyUrls []).
Proof.
  intros Habsent.
  assert (Hget : get_urls _storage query_id
                 = (JSONResponse 200 (BodyUrls []), _storage)).
  { unfold get_urls, retrieve_query. rewrite Habsent, delete_id by done. done. }
  split; [done|]. split.
  - rewrite Hget. intros [Hstatus _]. discriminate Hstatus.
  - intros st. unfold get_urls at 1. unfold retrieve_query.
    assert (Hgone : (get_urls st query_id).2 !! query_id = None).
    { unfold get_urls, retrieve_query.
      destruct (default _ _); simpl; apply lookup_delete_eq. }
    by rewrite Hgone.
Qed.

Lemma get_urls_absent_is_success_witness :
  get_urls QueryStorage_init "4c1f" = (JSONResponse 200 (BodyUrls []), QueryStorage_init)
  ∧ ¬ not_available (get_urls QueryStorage_init "4c1f").1.
Proof.
  destruct (get_urls_absent_is_success QueryStorage_init "4c1f") as (H1 & H2 & _).
  - reflexivity.
  - split; [exact H1 | exact H2].
Defined.

(** C2: [retrieve_query] after [store_query] returns exactly the stored
    list and removes the entry, so a second [retrieve_query] returns the
    empty list; [store_query] is a total function and a second
    [store_query] for the same identifier overwrites the first. *)
Theorem store_then_retrieve (_storage : gmap string pyval) (query_id : string)
    (urls u1 u2 : list string) :
  let taken := retrieve_query (store_query _storage query_id urls) query_id in
  taken.1 = PyList urls
  ∧ taken.2 !! query_id = None
  ∧ taken.2 = delete query_id _storage
  ∧ retrieve_query taken.2 query_id = (PyList [], taken.2)
  ∧ store_query (store_query _storage query_id u1) query_id u2
    = store_query _storage query_id u2.
Proof.
  unfold retrieve_query, store_query. simpl.
  rewrite lookup_insert_eq, delete_insert_eq, lookup_delete_eq. simpl.
  repeat split; try done.
  - by rewrite delete_id by apply lookup_delete_eq.
  - apply insert_insert_eq.
Qed.

(** ** Query streaming *)

Lemma advance_nil (l : list (option string)) :
  non_empty_tokens l = [] → advance l = (StopIteration, Finished).
Proof.
  induction l as [|text l IH]; [done|].
  unfold non_empty_tokens. simpl. destruct (truthy text) eqn:Ht.
  - destruct text; [discriminate | done].
  - intros Hl. by apply IH.
Qed.

Lemma advance_cons (l : list (option string)) (t : string) (ts : list string) :
  non_empty_tokens l = t :: ts →
  ∃ rest, advance l = (Yielded t, AtYield rest) ∧ non_empty_tokens rest = ts.
Proof.
  induction l as [|text l IH]; [done|].
  unfold non_empty_tokens. simpl. destruct (truthy text) eqn:Ht.
  - destruct text as [s|]; [|done]. simpl. intros [= -> <-]. by exists l.
  - intros Hl. by apply IH.
Qed.

Lemma length_non_empty_tokens (l : list (option string)) :
  length (non_empty_tokens l) ≤ length l.
Proof.
  induction l as [|text l IH]; [done|].
  unfold non_empty_tokens in *. csimpl.
  destruct (truthy text); [destruct text|]; csimpl; lia.
Qed.

Lemma run_app (sigs1 sigs2 : list signal) (st : gen_state) :
  run (sigs1 ++ sigs2) st
  = ((run sigs1 st).1 ++ (run sigs2 (run sigs1 st).2).1,
     (run sigs2 (run sigs1 st).2).2).
Proof.
  revert st. induction sigs1 as [|sig sigs1 IH]; intros st; simpl.
  - by destruct (run sigs2 st).
  - destruct (resume st sig) as [r st1]. rewrite IH.
    destruct (run sigs1 st1) as [rs1 st2]. simpl.
    by destruct (run sigs2 st2).
Qed.

Lemma run_next_finished (n : nat) :
  run (replicate n Next) Finished = (replicate n StopIteration, Finished).
Proof. induction n as [|n IH]; [done|]. simpl. by rewrite IH. Qed.

(** What [n] requests give, from the point where [l] is still to come. *)
Lemma run_next_advance (n : nat) (l : list (option string)) (st : gen_state) :
  resume st Next = advance l →
  ∃ st', run (replicate (S n) Next) st
         = ((Yielded <$> take (S n) (non_empty_tokens l))
            ++ replicate (S n - length (non_empty_tokens l)) StopIteration, st')
    ∧ (S n ≤ length (non_empty_tokens l) →
       ∃ rest, st' = AtYield rest
               ∧ non_empty_tokens rest = drop (S n) (non_empty_tokens l))
    ∧ (length (non_empty_tokens l) < S n → st' = Finished).
Proof.
  revert l st. induction n as [|n IH]; intros l st Hst.
  - simpl. rewrite Hst. destruct (non_empty_tokens l) as [|t ts] eqn:Hl.
    + rewrite (advance_nil _ Hl). eexists; split; [done|].
      split; [simpl; lia | done].
    + destruct (advance_cons _ _ _ Hl) as (rest & -> & Hrest).
      eexists; split; [simpl; by rewrite ?take_0|].
      split; [intros _; by exists rest | simpl; lia].
  - change (replicate (S (S n)) Next) with (Next :: replicate (S n) Next).
    cbn [run]. rewrite Hst. destruct (non_empty_tokens l) as [|t ts] eqn:Hl.
    + rewrite (advance_nil _ Hl), run_next_finished.
      eexists; split; [done|]. split; [simpl; lia | done].
    + destruct (advance_cons _ _ _ Hl) as (rest & -> & Hrest).
      destruct (IH rest (AtYield rest) eq_refl) as (st' & -> & Hin & Hout).
      rewrite Hrest in *. exists st'. split; [done|].
      split; [intros Hle; apply Hin; simpl in Hle; lia
             |intros Hlt; apply Hout; simpl in Hlt; lia].
Qed.

(** C9: asked for more items than [response_gen] has, the generator
    yields exactly the items of [response_gen] that are neither [None]
    nor empty, in their order, and then stops; and when a cancellation is
    thrown at it after [k] of them have been forwarded, it yields nothing
    more and stops without raising, also on later requests. *)
Theorem process_streaming_response_forwards (response_gen : list (option string)) :
  (∀ n, length response_gen < n →
     run (replicate n Next) (NotStarted response_gen)
     = ((Yielded <$> non_empty_tokens response_gen)
        ++ replicate (n - length (non_empty_tokens response_gen)) StopIteration,
        Finished))
  ∧ (∀ k m, 0 < k ≤ length (non_empty_tokens response_gen) →
     run (replicate k Next ++ Throw CancelledError :: replicate m Next)
         (NotStarted response_gen)
     = ((Yielded <$> take k (non_empty_tokens response_gen))
        ++ StopIteration :: replicate m StopIteration,
        Finished)).
Proof.
  pose proof (length_non_empty_tokens response_gen) as Hlen. split.
  - intros [|n] Hn; [lia|].
    destruct (run_next_advance n response_gen (NotStarted response_gen) eq_refl)
      as (st' & -> & _ & Hout).
    rewrite Hout by lia. by rewrite take_ge by lia.
  - intros [|k] m [Hk Hle]; [lia|].
    destruct (run_next_advance k response_gen (NotStarted response_gen) eq_refl)
      as (st' & Hrun & Hin & _).
    destruct (Hin Hle) as (rest & -> & _).
    rewrite run_app, Hrun. cbn [fst snd run resume].
    rewrite run_next_finished.
    replace (S k - _) with 0 by lia. simpl. by rewrite app_nil_r.
Qed.

(** An exception other than a cancellation is not caught: closing the
    suspended generator throws [GeneratorExit] through it. *)
Example process_streaming_response_close (rest : list (option string)) :
  resume (AtYield rest) (Throw GeneratorExit) = (Raised GeneratorExit, Finished).
Proof. reflexivity. Qed.

Lemma process_streaming_response_forwards_witness :
  run (replicate 5 Next) (NotStarted [Some "RAG"; None; Some EmptyString; Some " works"])
  = ([Yielded "RAG"; Yielded " works"; StopIteration; StopIteration; StopIteration],
     Finished)
  ∧ run [Next; Throw CancelledError; Next]
        (NotStarted [Some "RAG"; None; Some EmptyString; Some " works"])
    = ([Yielded "RAG"; StopIteration; StopIteration], Finished).
Proof.
  destruct (process_streaming_response_forwards
              [Some "RAG"; None; Some EmptyString; Some " works"]) as [Hall Hcancel].
  split.
  - apply (Hall 5). simpl. lia.
  - apply (Hcancel 1 1). simpl. lia.
Defined.

(** ** Sitemap normalisation *)

Lemma prefix_str_in (p s : string) :
  String.prefix p s = true → str_in p s = true.
Proof. intros Hp. destruct s; cbn [str_in]; by rewrite Hp. Qed.

Lemma last_char_cons (c : ascii) (s : string) : is_Some (last_char (String c s)).
Proof.
  revert c. induction s as [|c' s IH]; intros c; [by eexists|].
  change (last_char (String c (String c' s))) with (last_char (String c' s)).
  apply IH.
Qed.

Lemma str_in_last_char (c : ascii) (p s : string) :
  str_in (String c p) s = true → is_Some (last_char s).
Proof. destruct s; [done|]. intros _. apply last_char_cons. Qed.

(** The second step of the normalisation, on its own. *)
Lemma sitemap_url_second_step (website : string) :
  let s := if str_in "https://" website then website
           else "https://" +:+ website in
  sitemap_url website
  = Return (if str_in "sitemap.xml" s then s
            else if ends_with_slash s then s +:+ "sitemap.xml"
            else s +:+ "/sitemap.xml").
Proof.
  unfold sitemap_url, ends_with_slash, str_index_last.
  destruct (str_in "https://" website) eqn:Hscheme; cbn [negb].
  - destruct (str_in "sitemap.xml" website); [done|]. cbn [negb].
    destruct (str_in_last_char _ _ _ Hscheme) as [c ->]. simpl.
    by destruct (Ascii.eqb c "/").
  - cbv zeta.
    destruct (str_in "sitemap.xml" ("https://" +:+ website)); [done|]. cbn [negb].
    destruct (last_char_cons "h" ("ttps://" +:+ website)) as [c Hc].
    change ("https://" +:+ website) with (String "h" ("ttps://" +:+ website)).
    rewrite Hc. simpl. by destruct (Ascii.eqb c "/").
Qed.

Lemma sitemap_url_total (website : string) :
  ∃ sitemap, sitemap_url website = Return sitemap.
Proof. rewrite sitemap_url_second_step. by eexists. Qed.

(** C4, the clause that fails: a string that lacks the prefix and has
    ["https://"] further on is not given the prefix. *)
Lemma sitemap_url_scheme_inside_not_prefixed :
  String.prefix "https://" "http://a.io/?next=https://b.io" = false
  ∧ sitemap_url "http://a.io/?next=https://b.io"
    = Return "http://a.io/?next=https://b.io/sitemap.xml"
  ∧ sitemap_url "http://a.io/?next=https://b.io"
    ≠ Return (sitemap_url_spec "http://a.io/?next=https://b.io").
Proof. split; [reflexivity|]. split; [reflexivity|]. discriminate. Qed.

(** C4 (amended): the normalisation never raises; on every string in
    which ["https://"] occurs at the start or not at all it is the
    normalisation of the specification; on a string that has
    ["https://"] anywhere no prefix is added and only the second step
    applies; the four documented inputs give
    ["https://ai21.com/sitemap.xml"]. *)
Theorem sitemap_url_normalises (website : string) :
  ((str_in "https://" website = true → String.prefix "https://" website = true) →
   sitemap_url website = Return (sitemap_url_spec website))
  ∧ (∀ w, ∃ sitemap, sitemap_url w = Return sitemap)
  ∧ (∀ w, str_in "https://" w = true →
       sitemap_url w
       = Return (if str_in "sitemap.xml" w then w
                 else if ends_with_slash w then w +:+ "sitemap.xml"
                 else w +:+ "/sitemap.xml"))
  ∧ sitemap_url "ai21.com" = Return "https://ai21.com/sitemap.xml"
  ∧ sitemap_url "https://ai21.com" = Return "https://ai21.com/sitemap.xml"
  ∧ sitemap_url "https://ai21.com/sitemap.xml" = Return "https://ai21.com/sitemap.xml"
  ∧ sitemap_url "ai21.com/" = Return "https://ai21.com/sitemap.xml".
Proof.
  split; [|split; [|split]].
  - intros Hscheme. rewrite sitemap_url_second_step. unfold sitemap_url_spec. cbv zeta.
    destruct (str_in "https://" website) eqn:Hin.
    + by rewrite Hscheme.
    + destruct (String.prefix "https://" website) eqn:Hp; [|done].
      apply prefix_str_in in Hp. congruence.
  - apply sitemap_url_total.
  - intros w Hw. rewrite sitemap_url_second_step. cbv zeta. by rewrite Hw.
  - repeat split; reflexivity.
Qed.

Lemma sitemap_url_normalises_witness :
  sitemap_url "https://arvinas.com/" = Return (sitemap_url_spec "https://arvinas.com/")
  ∧ sitemap_url_spec "https://arvinas.com/" = "https://arvinas.com/sitemap.xml".
Proof.
  split; [|reflexivity].
  destruct (sitemap_url_normalises "https://arvinas.com/") as [Hspec _].
  apply Hspec. intros _. reflexivity.
Defined.

(** ** URL extraction *)

Lemma unique_loop_elem (l acc : list string) (u : string) :
  u ∈ foldl unique_step acc l ↔ u ∈ acc ∨ u ∈ l.
Proof.
  revert acc. induction l as [|x l IH]; intros acc; simpl.
  - rewrite elem_of_nil. tauto.
  - rewrite IH, elem_of_cons. unfold unique_step. case_decide.
    + split; [tauto|]. intros [?|[->|?]]; tauto.
    + rewrite elem_of_app, list_elem_of_singleton. tauto.
Qed.

Lemma unique_loop_NoDup (l acc : list string) :
  NoDup acc → NoDup (foldl unique_step acc l).
Proof.
  revert acc. induction l as [|x l IH]; intros acc Hacc; simpl; [done|].
  apply IH. unfold unique_step. case_decide; [done|].
  apply NoDup_app. split; [done|]. split; [|apply NoDup_singleton].
  intros y Hy ->%list_elem_of_singleton. done.
Qed.

Lemma first_index_lt (u : string) (l : list string) :
  u ∈ l → first_index u l < length l.
Proof.
  induction l as [|x l IH]; simpl; [by intros ?%elem_of_nil|].
  intros [->|Hu]%elem_of_cons; case_decide; try lia; try done.
  specialize (IH Hu). lia.
Qed.

Lemma first_index_app (u : string) (l1 l2 : list string) :
  first_index u (l1 ++ l2)
  = if decide (u ∈ l1) then first_index u l1 else length l1 + first_index u l2.
Proof.
  induction l1 as [|x l1 IH]; cbn [app first_index length].
  - rewrite decide_False by apply not_elem_of_nil. done.
  - rewrite IH. destruct (decide (x = u)) as [->|Hx].
    + rewrite decide_True by apply list_elem_of_here. done.
    + destruct (decide (u ∈ l1)) as [Hu|Hu].
      * rewrite decide_True by by apply list_elem_of_further. done.
      * rewrite decide_False; [done|].
        intros [->|?]%elem_of_cons; done.
Qed.

(** The loop keeps the order of first occurrences of what it has seen. *)
Lemma unique_loop_order (l acc : list string) (u v : string) :
  first_index u (foldl unique_step acc l) < first_index v (foldl unique_step acc l)
  ↔ first_index u (acc ++ l) < first_index v (acc ++ l).
Proof.
  revert acc. induction l as [|x l IH]; intros acc; simpl.
  - by rewrite app_nil_r.
  - rewrite IH. unfold unique_step. destruct (decide (x ∈ acc)) as [Hx|Hx].
    + rewrite !first_index_app. simpl.
      destruct (decide (u ∈ acc)) as [Hu|Hu], (decide (v ∈ acc)) as [Hv|Hv];
        try (pose proof (first_index_lt _ _ Hu));
        try (pose proof (first_index_lt _ _ Hv));
        repeat case_decide; subst; try done; lia.
    + by rewrite <-app_assoc.
Qed.

(** C5: the task stores, under [query_id], a list without duplicates
    that has exactly the extracted URLs, and in which [u] comes before
    [v] exactly when the first occurrence of [u] among the extracted
    URLs comes before the first occurrence of [v]. *)
Theorem process_url_extraction_first_seen `{Helper} (query_id : string)
    (sr : streaming_response) (query_storage : gmap string pyval) :
  ∃ unique_urls,
    process_url_extraction query_id sr query_storage !! query_id
    = Some (PyList unique_urls)
    ∧ NoDup unique_urls
    ∧ (∀ u, u ∈ unique_urls ↔ u ∈ extract_document_urls sr)
    ∧ (∀ u v, first_index u unique_urls < first_index v unique_urls
              ↔ first_index u (extract_document_urls sr)
                < first_index v (extract_document_urls sr)).
Proof.
  exists (unique_loop (extract_document_urls sr)). unfold unique_loop.
  split; [apply lookup_insert_eq|]. split; [apply unique_loop_NoDup, NoDup_nil_2|].
  split.
  - intros u. rewrite unique_loop_elem, elem_of_nil. tauto.
  - intros u v. apply unique_loop_order.
Qed.

(** The handler schedules the task under the identifier that it sends in
    the [X-Query-ID] header. *)
Lemma rag_query_background `{Helper} `{Runtime} (data : gmap string string)
    (r : rag_response) (query_storage : gmap string pyval) :
  rag_query data = Return r →
  x_query_id r = uuid4
  ∧ ∃ unique_urls,
      background r query_storage !! x_query_id r = Some (PyList unique_urls)
      ∧ NoDup unique_urls.
Proof.
  unfold rag_query. destruct (check_required _ _); [|done].
  cbn [mbind result_bind]. intros [= <-]. cbn [x_query_id background].
  split; [done|]. eexists. split; [apply lookup_insert_eq|].
  apply unique_loop_NoDup, NoDup_nil_2.
Qed.

Example process_url_extraction_sample :
  @process_url_extraction (sample_helper [] 0 true true) "q1"
    ([], ["https://a.io/1"; "https://a.io/2"; "https://a.io/1"; "https://a.io/3";
          "https://a.io/2"]) QueryStorage_init !! "q1"
  = Some (PyList ["https://a.io/1"; "https://a.io/2"; "https://a.io/3"]).
Proof. reflexivity. Qed.

(** ** The scrape-and-ingest generator *)

Lemma dict_set_keys (d : list (string * string)) (k v : string) :
  (dict_set d k v).*1 = if decide (k ∈ d.*1) then d.*1 else d.*1 ++ [k].
Proof.
  induction d as [|[k' v'] d IH]; cbn [dict_set fmap list_fmap fst].
  - by rewrite decide_False by apply not_elem_of_nil.
  - destruct (String.eqb_spec k' k) as [->|Hne]; cbn [fmap list_fmap fst].
    + by rewrite decide_True by apply list_elem_of_here.
    + fold (@fmap list _ _ _ (@fst string string) (dict_set d k v)).
      fold (@fmap list _ _ _ (@fst string string) d). rewrite IH.
      destruct (decide (k ∈ d.*1)) as [Hk|Hk].
      * by rewrite decide_True by by apply list_elem_of_further.
      * rewrite decide_False; [done|]. intros [->|?]%elem_of_cons; done.
Qed.

Lemma dict_set_elem (d : list (string * string)) (k v k' v' : string) :
  (k', v') ∈ dict_set d k v → (k' = k ∧ v' = v) ∨ (k', v') ∈ d.
Proof.
  induction d as [|[k0 v0] d IH]; cbn [dict_set].
  - intros [= -> ->]%list_elem_of_singleton. by left.
  - destruct (String.eqb k0 k).
    + intros [[= -> ->]|Hin]%elem_of_cons; [by left|].
      right. by apply list_elem_of_further.
    + intros [->|Hin]%elem_of_cons; [right; apply list_elem_of_here|].
      destruct (IH Hin) as [?|?]; [by left|].
      right. by apply list_elem_of_further.
Qed.

Lemma dict_set_NoDup (d : list (string * string)) (k v : string) :
  NoDup d.*1 → NoDup (dict_set d k v).*1.
Proof.
  intros Hd. rewrite dict_set_keys. case_decide; [done|].
  apply NoDup_app. split; [done|]. split; [|apply NoDup_singleton].
  intros y Hy ->%list_elem_of_singleton. done.
Qed.

Lemma dict_set_key_elem (d : list (string * string)) (k v k' : string) :
  k' ∈ (dict_set d k v).*1 ↔ k' = k ∨ k' ∈ d.*1.
Proof.
  rewrite dict_set_keys. case_decide.
  - split; [tauto|]. by intros [->|?].
  - rewrite elem_of_app, list_elem_of_singleton. tauto.
Qed.

Lemma stream_app (ev1 ev2 : list event) : stream (ev1 ++ ev2) = stream ev1 ++ stream ev2.
Proof. apply omap_app. Qed.

Lemma scrape_calls_app (ev1 ev2 : list event) :
  scrape_calls (ev1 ++ ev2) = scrape_calls ev1 ++ scrape_calls ev2.
Proof. apply omap_app. Qed.

Lemma store_calls_app (ev1 ev2 : list event) :
  store_calls (ev1 ++ ev2) = store_calls ev1 ++ store_calls ev2.
Proof. apply filter_app. Qed.

Lemma stream_yields (lines : list string) : stream (Yield <$> lines) = lines.
Proof. induction lines as [|line lines IH]; [done|]. unfold stream in *. csimpl. by rewrite IH. Qed.

Lemma store_calls_yields (lines : list string) : store_calls (Yield <$> lines) = [].
Proof. induction lines as [|line lines IH]; [done|]. exact IH. Qed.

Section scrape_loop.
Context `{Helper} `{Runtime} (website_name : string) (total : nat).

Local Abbreviation loop :=
  (foldl (scrape_step website_name total)
         {| text_dict := []; loop_i := 0; events := [] |}).
Local Abbreviation qualified := (qualify website_name).

Lemma scrape_step_loop_i (st : loop_state) (item : string) :
  loop_i (scrape_step website_name total st item) = S (loop_i st).
Proof. unfold scrape_step. by destruct (try_scrape _ _). Qed.

Lemma scrape_step_events (st : loop_state) (item : string) :
  events (scrape_step website_name total st item)
  = events st
    ++ Yield (line_page (S (loop_i st)) total (qualified item))
    :: CallScrapeLink (qualified item)
    :: match try_scrape (S (loop_i st)) (qualified item) with
       | inl _ => []
       | inr e => [Yield (line_failed (qualified item) e)]
       end.
Proof.
  unfold scrape_step. destruct (try_scrape _ _); cbn [events]; [done|].
  by rewrite <-app_assoc.
Qed.

Lemma scrape_step_text_dict (st : loop_state) (item : string) :
  text_dict (scrape_step website_name total st item)
  = match try_scrape (S (loop_i st)) (qualified item) with
    | inl text => dict_set (text_dict st) (qualified item) text
    | inr _ => text_dict st
    end.
Proof. unfold scrape_step. by destruct (try_scrape _ _). Qed.

Lemma loop_i_length (l : list string) : loop_i (loop l) = length l.
Proof.
  induction l as [|item l IH] using rev_ind; [done|].
  rewrite foldl_snoc, scrape_step_loop_i, IH, length_app. simpl. lia.
Qed.

(** Every page is handed to [scrape_link], in the order of the sitemap. *)
Lemma loop_scrape_calls (l : list string) :
  scrape_calls (events (loop l)) = qualified <$> l.
Proof.
  induction l as [|item l IH] using rev_ind; [done|].
  rewrite foldl_snoc, scrape_step_events, scrape_calls_app, IH, fmap_app.
  f_equal. by destruct (try_scrape _ _).
Qed.

(** The loop calls neither the blob store nor the vector store. *)
Lemma loop_store_calls (l : list string) : store_calls (events (loop l)) = [].
Proof.
  induction l as [|item l IH] using rev_ind; [done|].
  rewrite foldl_snoc, scrape_step_events, store_calls_app, IH.
  by destruct (try_scrape _ _).
Qed.

(** The lines of the loop: one per page, and one per failure. *)
Lemma loop_stream_page (l : list string) (j : nat) (p : string) :
  l !! j = Some p →
  line_page (S j) total (qualified p) ∈ stream (events (loop l)).
Proof.
  revert j p. induction l as [|item l IH] using rev_ind; intros j p; [done|].
  rewrite foldl_snoc, scrape_step_events, stream_app, loop_i_length, elem_of_app.
  intros [[_ Hj]|[-> ->]]%lookup_snoc_Some; [left; by apply (IH _ _ Hj)|].
  right. unfold stream. csimpl. apply list_elem_of_here.
Qed.

Lemma loop_stream_failed (l : list string) (j : nat) (p e : string) :
  l !! j = Some p →
  try_scrape (S j) (qualified p) = inr e →
  line_failed (qualified p) e ∈ stream (events (loop l)).
Proof.
  revert j p. induction l as [|item l IH] using rev_ind; intros j p; [done|].
  rewrite foldl_snoc, scrape_step_events, stream_app, loop_i_length, elem_of_app.
  intros [[_ Hj]|[-> ->]]%lookup_snoc_Some Hfault; [left; by apply (IH _ _ Hj)|].
  right. rewrite Hfault. unfold stream. csimpl.
  apply list_elem_of_further, list_elem_of_here.
Qed.

Lemma loop_stream_lines (l : list string) (line : string) :
  line ∈ stream (events (loop l)) →
  ∃ j p, l !! j = Some p
    ∧ (line = line_page (S j) total (qualified p)
       ∨ ∃ e, try_scrape (S j) (qualified p) = inr e
              ∧ line = line_failed (qualified p) e).
Proof.
  induction l as [|item l IH] using rev_ind; [by intros ?%elem_of_nil|].
  rewrite foldl_snoc, scrape_step_events, stream_app, loop_i_length, elem_of_app.
  intros [Hin|Hin].
  - destruct (IH Hin) as (j & p & Hj & Hline).
    exists j, p. split; [by apply lookup_app_l_Some | done].
  - exists (length l), item. split; [apply list_lookup_middle; done|].
    unfold stream in Hin. csimpl in Hin.
    apply elem_of_cons in Hin as [->|Hin]; [by left|]. right.
    destruct (try_scrape _ _) as [text|e]; csimpl in Hin.
    + by apply elem_of_nil in Hin.
    + apply list_elem_of_singleton in Hin as ->. by exists e.
Qed.

(** [text_dict] has one entry per link, and exactly the links for which
    some attempt succeeded, each with a text that an attempt gave. *)
Lemma loop_text_dict_NoDup (l : list string) : NoDup (text_dict (loop l)).*1.
Proof.
  induction l as [|item l IH] using rev_ind; [apply NoDup_nil_2|].
  rewrite foldl_snoc, scrape_step_text_dict.
  destruct (try_scrape _ _); [by apply dict_set_NoDup | done].
Qed.

Lemma loop_text_dict_sound (l : list string) (url text : string) :
  (url, text) ∈ text_dict (loop l) →
  ∃ j p, l !! j = Some p ∧ qualified p = url ∧ try_scrape (S j) url = inl text.
Proof.
  induction l as [|item l IH] using rev_ind; [by intros ?%elem_of_nil|].
  rewrite foldl_snoc, scrape_step_text_dict, loop_i_length.
  assert (Hold : (url, text) ∈ text_dict (loop l) →
                 ∃ j p, (l ++ [item]) !! j = Some p ∧ qualified p = url
                        ∧ try_scrape (S j) url = inl text).
  { intros Hin. destruct (IH Hin) as (j & p & Hj & Hp).
    exists j, p. split; [by apply lookup_app_l_Some | done]. }
  destruct (try_scrape _ _) as [text'|e] eqn:Htry; [|done].
  intros [[-> ->]|Hin]%dict_set_elem; [|by apply Hold].
  exists (length l), item. split; [apply list_lookup_middle; done | done].
Qed.

Lemma loop_text_dict_complete (l : list string) (j : nat) (p text : string) :
  l !! j = Some p →
  try_scrape (S j) (qualified p) = inl text →
  qualified p ∈ (text_dict (loop l)).*1.
Proof.
  revert j p text.
  induction l as [|item l IH] using rev_ind; intros j p text; [done|].
  rewrite foldl_snoc, scrape_step_text_dict, loop_i_length.
  intros [[_ Hj]|[-> ->]]%lookup_snoc_Some Htry.
  - specialize (IH _ _ _ Hj Htry).
    destruct (try_scrape (S (length l)) _); [|done].
  apply dict_set_key_elem. by right.
  - rewrite Htry. apply dict_set_key_elem. by left.
Qed.
End scrape_loop.

(** ** The handler reaches the generator *)

Lemma prefix_app (p s x : string) :
  String.prefix p s = true → String.prefix p (s +:+ x) = true.
Proof.
  revert p. induction s as [|c s IH]; intros [|a p]; simpl; try done.
  - by destruct x.
  - destruct (ascii_dec a c); [apply IH | done].
Qed.

Lemma str_in_app (p s x : string) :
  str_in p s = true → str_in p (s +:+ x) = true.
Proof.
  induction s as [|c s IH]; cbn [str_in].
  - destruct (String.prefix p EmptyString) eqn:Hp; [|done].
    intros _. apply prefix_str_in. by apply (prefix_app p EmptyString x).
  - destruct (String.prefix p (String c s)) eqn:Hp.
    + intros _. apply prefix_str_in. by apply (prefix_app p (String c s) x).
    + intros Hin. change (String c s +:+ x) with (String c (s +:+ x)).
      cbn [str_in]. rewrite (IH Hin).
      by destruct (String.prefix p (String c (s +:+ x))).
Qed.

Lemma prefix_self_app (p b : string) : String.prefix p (p +:+ b) = true.
Proof.
  induction p as [|a p IH]; simpl; [by destruct b|].
  destruct (ascii_dec a a); [exact IH | done].
Qed.

Lemma str_in_app_r (p a b : string) :
  str_in p b = true → str_in p (a +:+ b) = true.
Proof.
  intros Hb. induction a as [|c a IH]; [done|].
  change (String c a +:+ b) with (String c (a +:+ b)). cbn [str_in].
  rewrite IH. by destruct (String.prefix p (String c (a +:+ b))).
Qed.

Lemma str_in_self_app (p b : string) : str_in p (p +:+ b) = true.
Proof. apply prefix_str_in, prefix_self_app. Qed.

Lemma split_slash_length_pos (s : string) : 0 < length (split_slash s).
Proof.
  destruct s as [|c s]; cbn [split_slash]; [simpl; lia|].
  destruct (Ascii.eqb c "/"); [simpl; lia|].
  destruct (split_slash s); simpl; lia.
Qed.

Lemma split_slash_length_cons (c : ascii) (s : string) :
  length (split_slash (String c s))
  = (if Ascii.eqb c "/" then 1 else 0) + length (split_slash s).
Proof.
  pose proof (split_slash_length_pos s) as Hpos. cbn [split_slash].
  destruct (Ascii.eqb c "/"); [done|].
  destruct (split_slash s); [simpl in Hpos; lia | done].
Qed.

Lemma prefix_split_slash (p s : string) :
  String.prefix p s = true → length (split_slash p) ≤ length (split_slash s).
Proof.
  revert p. induction s as [|c s IH]; intros [|a p]; simpl String.prefix; try done.
  - intros _. pose proof (split_slash_length_pos (String c s)). simpl in *. lia.
  - destruct (ascii_dec a c) as [->|]; [|done]. intros Hp%IH.
    rewrite !split_slash_length_cons. lia.
Qed.

Lemma str_in_split_slash (p s : string) :
  str_in p s = true → length (split_slash p) ≤ length (split_slash s).
Proof.
  induction s as [|c s IH]; cbn [str_in].
  - destruct (String.prefix p EmptyString) eqn:Hp; [|done].
    intros _. by apply prefix_split_slash.
  - destruct (String.prefix p (String c s)) eqn:Hp.
    + intros _. by apply prefix_split_slash.
    + intros Hin%IH. rewrite split_slash_length_cons. lia.
Qed.

(** The normalised URL has the scheme in it, so [link_split[2]] exists. *)
Lemma sitemap_url_has_scheme (website sitemap : string) :
  sitemap_url website = Return sitemap → str_in "https://" sitemap = true.
Proof.
  rewrite sitemap_url_second_step. cbv zeta.
  set (s := if str_in "https://" website then website else "https://" +:+ website).
  assert (Hs : str_in "https://" s = true).
  { subst s. destruct (str_in "https://" website) eqn:Hin; [done|].
    apply prefix_str_in. simpl. by destruct website. }
  intros [= <-].
  destruct (str_in "sitemap.xml" s); [done|].
  destruct (ends_with_slash s); by apply str_in_app.
Qed.

Lemma scrape_sitemap_streams `{Helper} `{Runtime} (data : gmap string string)
    (website : string) :
  data !! "text" = Some website →
  ∃ sitemap website_name,
    sitemap_url website = Return sitemap
    ∧ split_slash sitemap !! 2 = Some website_name
    ∧ scrape_sitemap data
      = Return (scraping_process sitemap website_name (get_sitemap_attributes sitemap)).
Proof.
  intros Htext.
  destruct (sitemap_url_total website) as [sitemap Hsitemap].
  pose proof (str_in_split_slash _ _ (sitemap_url_has_scheme _ _ Hsitemap)) as Hlen.
  change (length (split_slash "https://")) with 3 in Hlen.
  destruct (lookup_lt_is_Some_2 (split_slash sitemap) 2) as [website_name Hname]; [lia|].
  exists sitemap, website_name. split; [done|]. split; [done|].
  unfold scrape_sitemap, list_index. rewrite Htext, Hsitemap. simpl.
  by rewrite Hname.
Qed.

(** ** The run of the generator *)

Lemma saved_tables_app (ev1 ev2 : list event) :
  saved_tables (ev1 ++ ev2) = saved_tables ev1 ++ saved_tables ev2.
Proof. apply omap_app. Qed.

Lemma saved_tables_yields (lines : list string) : saved_tables (Yield <$> lines) = [].
Proof. induction lines as [|line lines IH]; [done|]. exact IH. Qed.

Lemma scrape_calls_yields (lines : list string) : scrape_calls (Yield <$> lines) = [].
Proof. induction lines as [|line lines IH]; [done|]. exact IH. Qed.

Lemma loop_saved_tables `{Helper} `{Runtime} (website_name : string) (total : nat)
    (l : list string) :
  saved_tables
    (events (foldl (scrape_step website_name total)
                   {| text_dict := []; loop_i := 0; events := [] |} l)) = [].
Proof.
  induction l as [|item l IH] using rev_ind; [done|].
  rewrite foldl_snoc, scrape_step_events, saved_tables_app, IH.
  by destruct (try_scrape _ _).
Qed.

Section persist_and_ingest.
Context `{Helper} `{Runtime} (sitemap website_name : string).
Context (df : list (string * string)).

Local Abbreviation file := (output_file website_name).

Lemma persist_and_ingest_stream :
  stream (persist_and_ingest sitemap website_name df)
  = if save_to_gcloud df file then
      line_saved ::
      if download_blob_from_gcloud file then line_chunking :: store_to_weaviate file
      else []
    else [line_not_completed sitemap].
Proof.
  unfold persist_and_ingest. destruct (save_to_gcloud _ _); [|done].
  destruct (download_blob_from_gcloud _); [|done].
  change (stream ?l) with (line_saved :: line_chunking
                           :: stream (Yield <$> store_to_weaviate file)).
  by rewrite stream_yields.
Qed.

Lemma persist_and_ingest_store_calls :
  store_calls (persist_and_ingest sitemap website_name df)
  = CallSaveToGcloud df file ::
    if save_to_gcloud df file then
      CallDownloadBlob file ::
      if download_blob_from_gcloud file then [CallStoreToWeaviate file] else []
    else [].
Proof.
  unfold persist_and_ingest. destruct (save_to_gcloud _ _); [|done].
  destruct (download_blob_from_gcloud _); [|done].
  change (store_calls ?l)
    with (CallSaveToGcloud df file :: CallDownloadBlob file :: CallStoreToWeaviate file
          :: store_calls (Yield <$> store_to_weaviate file)).
  by rewrite store_calls_yields.
Qed.

Lemma persist_and_ingest_saved_tables :
  saved_tables (persist_and_ingest sitemap website_name df) = [df].
Proof.
  unfold persist_and_ingest. destruct (save_to_gcloud _ _); [|done].
  destruct (download_blob_from_gcloud _); [|done].
  change (saved_tables ?l)
    with (df :: saved_tables (Yield <$> store_to_weaviate file)).
  by rewrite saved_tables_yields.
Qed.

Lemma persist_and_ingest_scrape_calls :
  scrape_calls (persist_and_ingest sitemap website_name df) = [].
Proof.
  unfold persist_and_ingest. destruct (save_to_gcloud _ _); [|done].
  destruct (download_blob_from_gcloud _); [|done].
  change (scrape_calls ?l)
    with (scrape_calls (Yield <$> store_to_weaviate file)).
  by rewrite scrape_calls_yields.
Qed.
End persist_and_ingest.

Lemma scraping_process_pages `{Helper} `{Runtime} (sitemap website_name : string)
    (pages : list string) :
  pages ≠ [] →
  scraping_process sitemap website_name pages
  = events (scrape_loop website_name pages)
    ++ persist_and_ingest sitemap website_name
         (text_dict (scrape_loop website_name pages))
    ++ [Yield line_completed].
Proof.
  intros Hpages. unfold scraping_process.
  destruct pages as [|p pages]; [done|].
  cbn [length Nat.eqb]. by rewrite <-app_assoc.
Qed.

Lemma scraping_process_last_line `{Helper} `{Runtime} (sitemap website_name : string)
    (pages : list string) :
  last (stream (scraping_process sitemap website_name pages)) = Some line_completed.
Proof. unfold scraping_process. rewrite stream_app. apply last_snoc. Qed.

(** An event of a run that is a call to a store is among its [store_calls]. *)
Lemma store_calls_ingest (run : list event) (ev : event) :
  ev ∈ run → is_ingest ev = true → ev ∈ store_calls run.
Proof.
  intros Hev Hingest. apply list_elem_of_filter. split; [|done].
  rewrite Hingest. by destruct (is_persist ev).
Qed.

(** The calls to the two stores, in the order of the run. *)
Lemma scraping_process_store_calls `{Helper} `{Runtime}
    (sitemap website_name : string) (pages : list string) :
  let df := text_dict (scrape_loop website_name pages) in
  let file := output_file website_name in
  store_calls (scraping_process sitemap website_name pages)
  = (if length pages =? 0 then []
     else CallSaveToGcloud df file ::
          if save_to_gcloud df file then
            CallDownloadBlob file ::
            if download_blob_from_gcloud file then [CallStoreToWeaviate file]
            else []
          else []).
Proof.
  intros df file.
  destruct pages as [|p pages]; [done|]. cbn [length Nat.eqb].
  rewrite scraping_process_pages, !store_calls_app by done.
  unfold scrape_loop at 1.
  rewrite loop_store_calls, persist_and_ingest_store_calls.
  change (store_calls [Yield line_completed]) with (@nil event).
  by rewrite app_nil_r.
Qed.

(** What the [try] block gives, in terms of what [scrape_link] does. *)
Lemma try_scrape_inl `{Helper} `{Runtime} (i : nat) (item text : string) :
  try_scrape i item = inl text
  ↔ ∃ scraped_data, scrape_link i item = Scraped scraped_data
                    ∧ scraped_data !! item = Some text.
Proof.
  unfold try_scrape. destruct (scrape_link i item) as [d|e'].
  - destruct (d !! item) as [t|] eqn:Hd.
    + split; [intros [= ->]; by exists d | intros (d' & [= <-] & Hd'); congruence].
    + split; [done | intros (d' & [= <-] & Hd'); congruence].
  - split; [done | by intros (d' & ? & _)].
Qed.

Lemma try_scrape_inr `{Helper} `{Runtime} (i : nat) (item e : string) :
  try_scrape i item = inr e
  ↔ scrape_link i item = ScrapeFault e
    ∨ ∃ scraped_data, scrape_link i item = Scraped scraped_data
                      ∧ scraped_data !! item = None ∧ e = repr item.
Proof.
  unfold try_scrape. destruct (scrape_link i item) as [d|e'].
  - destruct (d !! item) as [t|] eqn:Hd.
    + split; [done|]. intros [?|(d' & [= <-] & Hd' & _)]; congruence.
    + split; [intros [= <-]; right; by exists d|].
      intros [?|(d' & _ & _ & ->)]; [done | done].
  - split; [intros [= ->]; by left|].
    intros [[= ->]|(d' & ? & _)]; done.
Qed.

(** The texts of the lines have in them what they are about. *)
Lemma failure_line_mentions (item e : string) :
  str_in item ("Failed to scrape " +:+ item +:+ ": " +:+ e +:+ nl) = true
  ∧ str_in e ("Failed to scrape " +:+ item +:+ ": " +:+ e +:+ nl) = true.
Proof.
  split.
  - apply str_in_app_r, str_in_self_app.
  - do 3 apply str_in_app_r. apply str_in_self_app.
Qed.

(** C6: when the attempt on page [k] raises (be it [scrape_link]
    itself, or the lookup of the link in the dictionary it returned), the
    stream has the line ["Failed to scrape <link>: <description>"], which
    names the link and has the description of the fault in it; every
    page of the sitemap is still handed to [scrape_link], in order; the
    table handed to [save_to_gcloud] has one row per link, each with a
    text that [scrape_link] returned for that link, and a row for every
    link for which [scrape_link] returned a text, so a link whose
    attempts all failed has no row; and the last line of the stream is
    ["All steps completed successfully."]. *)
Theorem scraping_process_tolerates_page_fault `{Helper} `{Runtime}
    (sitemap website_name : string) (pages : list string)
    (k : nat) (p e : string) :
  pages !! k = Some p →
  (scrape_link (S k) (qualify website_name p) = ScrapeFault e
   ∨ ∃ scraped_data,
       scrape_link (S k) (qualify website_name p) = Scraped scraped_data
       ∧ scraped_data !! qualify website_name p = None
       ∧ e = repr (qualify website_name p)) →
  let run := scraping_process sitemap website_name pages in
  let failure :=
    "Failed to scrape " +:+ qualify website_name p +:+ ": " +:+ e +:+ nl in
  failure ∈ stream run
  ∧ str_in (qualify website_name p) failure = true
  ∧ str_in e failure = true
  ∧ scrape_calls run = qualify website_name <$> pages
  ∧ (∃ df, saved_tables run = [df]
       ∧ NoDup df.*1
       ∧ (∀ url text, (url, text) ∈ df →
            ∃ j p' scraped_data,
              pages !! j = Some p' ∧ qualify website_name p' = url
              ∧ scrape_link (S j) url = Scraped scraped_data
              ∧ scraped_data !! url = Some text)
       ∧ (∀ j p' scraped_data text, pages !! j = Some p' →
            scrape_link (S j) (qualify website_name p') = Scraped scraped_data →
            scraped_data !! qualify website_name p' = Some text →
            qualify website_name p' ∈ df.*1))
  ∧ last (stream run) = Some ("All steps completed successfully." +:+ nl).
Proof.
  intros Hk Hfault%try_scrape_inr run failure.
  assert (Hpages : pages ≠ []) by (intros ->; done).
  destruct (failure_line_mentions (qualify website_name p) e) as [Hitem He].
  subst run failure. split; [|split; [done|split; [done|split; [|split]]]].
  - change ("Failed to scrape " +:+ qualify website_name p +:+ ": " +:+ e +:+ nl)
      with (line_failed (qualify website_name p) e).
    rewrite scraping_process_pages, stream_app, elem_of_app by done. left.
    by apply loop_stream_failed with k.
  - rewrite scraping_process_pages, !scrape_calls_app by done.
    unfold scrape_loop.
    rewrite loop_scrape_calls, persist_and_ingest_scrape_calls.
    by rewrite app_nil_r.
  - exists (text_dict (scrape_loop website_name pages)).
    split; [|split; [|split]].
    + rewrite scraping_process_pages, !saved_tables_app by done.
      unfold scrape_loop at 1.
      by rewrite loop_saved_tables, persist_and_ingest_saved_tables.
    + apply loop_text_dict_NoDup.
    + intros url text Hin.
      destruct (loop_text_dict_sound _ _ _ _ _ Hin) as (j & p' & Hj & Hp' & Htry).
      apply try_scrape_inl in Htry as (d & Hd & Htext). by exists j, p', d.
    + intros j p' d text Hj Hd Htext.
      apply (loop_text_dict_complete _ _ _ j p' text Hj).
      apply try_scrape_inl. by exists d.
  - change ("All steps completed successfully." +:+ nl) with line_completed.
    apply scraping_process_last_line.
Qed.

Lemma scraping_process_tolerates_page_fault_witness :
  ("Failed to scrape https://a.io/2: timed out" +:+ nl)
    ∈ stream (sample_run 2 true true)
  ∧ scrape_calls (sample_run 2 true true)
    = ["https://a.io/1"; "https://a.io/2"; "https://a.io/3"]
  ∧ saved_tables (sample_run 2 true true)
    = [[("https://a.io/1", "text of https://a.io/1");
        ("https://a.io/3", "text of https://a.io/3")]]
  ∧ last (stream (sample_run 2 true true))
    = Some ("All steps completed successfully." +:+ nl).
Proof.
  destruct (@scraping_process_tolerates_page_fault
              (sample_helper sample_pages 2 true true) sample_runtime
              "https://a.io/sitemap.xml" "a.io" sample_pages 1 "/2" "timed out")
    as (Hline & _ & _ & Hcalls & _ & Hlast).
  - reflexivity.
  - left. reflexivity.
  - split; [exact Hline|]. split; [exact Hcalls|]. split; [reflexivity | exact Hlast].
Defined.

(** C7: the last line of the stream is ["All steps completed
    successfully."] on every path; the calls to the blob store and the
    vector store are, in order, none for an empty sitemap, else
    [save_to_gcloud], then [download_blob_from_gcloud] only if the save
    succeeded, then [store_to_weaviate] only if the download succeeded
    too; and when the save fails, the stream ends with the line ["The
    scraping process did not complete as expected for <sitemap>"], which
    names the sitemap, followed by the completion line, and no event of
    the run is a call to the vector store. *)
Theorem scraping_process_persist_gate `{Helper} `{Runtime}
    (sitemap website_name : string) (pages : list string) :
  let run := scraping_process sitemap website_name pages in
  let st := scrape_loop website_name pages in
  let df := text_dict st in
  let file := output_file website_name in
  let failure :=
    "The scraping process did not complete as expected for " +:+ sitemap +:+ nl in
  last (stream run) = Some ("All steps completed successfully." +:+ nl)
  ∧ store_calls run
    = (if length pages =? 0 then []
       else CallSaveToGcloud df file ::
            if save_to_gcloud df file then
              CallDownloadBlob file ::
              if download_blob_from_gcloud file then [CallStoreToWeaviate file]
              else []
            else [])
  ∧ (pages ≠ [] → save_to_gcloud df file = false →
     stream run
     = stream (events st)
       ++ [failure; "All steps completed successfully." +:+ nl]
     ∧ str_in sitemap failure = true
     ∧ ∀ ev, ev ∈ run → is_ingest ev = false).
Proof.
  intros run st df file failure.
  pose proof (scraping_process_store_calls sitemap website_name pages) as Hcalls.
  cbv zeta in Hcalls. fold run st df file in Hcalls.
  change ("All steps completed successfully." +:+ nl) with line_completed.
  split; [apply scraping_process_last_line|]. split; [exact Hcalls|].
  intros Hpages Hsave. split; [|split].
  - subst run failure.
    change ("The scraping process did not complete as expected for "
            +:+ sitemap +:+ nl) with (line_not_completed sitemap).
    rewrite scraping_process_pages, !stream_app by done.
    rewrite persist_and_ingest_stream. fold st df file. by rewrite Hsave.
  - subst failure. apply str_in_app_r, str_in_self_app.
  - intros ev Hev. destruct (is_ingest ev) eqn:Hingest; [|done].
    pose proof (store_calls_ingest _ _ Hev Hingest) as Hin.
    rewrite Hcalls, Hsave in Hin. destruct pages as [|p pages]; [done|].
    cbn [length Nat.eqb] in Hin.
    apply list_elem_of_singleton in Hin as ->. done.
Qed.

Lemma scraping_process_persist_gate_witness :
  stream (sample_run 2 false true)
  = ["1 of 3: https://a.io/1" +:+ nl; "2 of 3: https://a.io/2" +:+ nl;
     "Failed to scrape https://a.io/2: timed out" +:+ nl;
     "3 of 3: https://a.io/3" +:+ nl;
     "The scraping process did not complete as expected for https://a.io/sitemap.xml"
       +:+ nl;
     "All steps completed successfully." +:+ nl]
  ∧ ∀ ev, ev ∈ sample_run 2 false true → is_ingest ev = false.
Proof.
  destruct (@scraping_process_persist_gate
              (sample_helper sample_pages 2 false true) sample_runtime
              "https://a.io/sitemap.xml" "a.io" sample_pages)
    as (_ & _ & Hfail).
  destruct Hfail as (Hstream & _ & Hnone); [done | reflexivity |].
  split; [|exact Hnone]. unfold sample_run. rewrite Hstream. reflexivity.
Defined.

(** C8: when the sitemap has no pages, the run is the line ["Found 0
    pages to scrape in <sitemap>"] followed by the line ["All steps
    completed successfully."], and nothing else: the generator ends
    normally, with no call to [scrape_link], to the blob store or to the
    vector store; and the handler returns that response for every
    request whose sitemap resolves to no pages. *)
Theorem scraping_process_zero_pages `{Helper} `{Runtime}
    (sitemap website_name : string) (pages : list string) :
  length pages = 0 →
  let run := scraping_process sitemap website_name pages in
  run = [Yield ("Found 0 pages to scrape in " +:+ sitemap +:+ nl);
         Yield ("All steps completed successfully." +:+ nl)]
  ∧ stream run = ["Found 0 pages to scrape in " +:+ sitemap +:+ nl;
                  "All steps completed successfully." +:+ nl]
  ∧ str_in "0 pages" ("Found 0 pages to scrape in " +:+ sitemap +:+ nl) = true
  ∧ store_calls run = []
  ∧ scrape_calls run = []
  ∧ ∀ data website normalised,
      data !! "text" = Some website →
      sitemap_url website = Return normalised →
      get_sitemap_attributes normalised = [] →
      scrape_sitemap data
      = Return [Yield ("Found 0 pages to scrape in " +:+ normalised +:+ nl);
                Yield ("All steps completed successfully." +:+ nl)].
Proof.
  intros ->%nil_length_inv run. repeat split.
  intros data website normalised Htext Hurl Hnone.
  destruct (scrape_sitemap_streams data website Htext)
    as (sitemap' & name & Hurl' & _ & ->).
  rewrite Hurl in Hurl'. injection Hurl' as <-. by rewrite Hnone.
Qed.

Lemma scraping_process_zero_pages_witness :
  @scrape_sitemap (sample_helper [] 0 true true) sample_runtime {[ "text" := "a.io" ]}
  = Return [Yield ("Found 0 pages to scrape in https://a.io/sitemap.xml" +:+ nl);
            Yield ("All steps completed successfully." +:+ nl)].
Proof.
  destruct (@scraping_process_zero_pages (sample_helper [] 0 true true)
              sample_runtime "https://a.io/sitemap.xml" "a.io" [] eq_refl)
    as (_ & _ & _ & _ & _ & Hhandler).
  apply (Hhandler {[ "text" := "a.io" ]} "a.io"); reflexivity.
Defined.

(** C3 (the code departs from it): when the save succeeds and the
    download fails, the stream is the lines of the loop, each a page
    line or a scrape-failure line, then the "Finished saving" line, then
    the completion line; the notice of the failed download is printed on
    the standard output of the server and is no line of the stream; no
    event of the run is a call to the vector store. *)
Theorem scraping_process_reload_failure_unreported `{Helper} `{Runtime}
    (sitemap website_name : string) (pages : list string) :
  let run := scraping_process sitemap website_name pages in
  let st := scrape_loop website_name pages in
  let file := output_file website_name in
  pages ≠ [] →
  save_to_gcloud (text_dict st) file = true →
  download_blob_from_gcloud file = false →
  stream run = stream (events st) ++ [line_saved; line_completed]
  ∧ (∀ line, line ∈ stream (events st) →
       ∃ j p, pages !! j = Some p
         ∧ (line = line_page (S j) (length pages) (qualify website_name p)
            ∨ ∃ e, try_scrape (S j) (qualify website_name p) = inr e
                   ∧ line = line_failed (qualify website_name p) e))
  ∧ Print line_download_error ∈ run
  ∧ ∀ ev, ev ∈ run → is_ingest ev = false.
Proof.
  intros run st file Hpages Hsave Hdownload.
  assert (Hrun : run = events st ++ [CallSaveToGcloud (text_dict st) file;
                                     Yield line_saved; CallDownloadBlob file;
                                     Print line_download_error; Yield line_completed]).
  { subst run. rewrite scraping_process_pages by done. fold st.
    unfold persist_and_ingest. fold file. by rewrite Hsave, Hdownload. }
  split; [|split; [|split]].
  - by rewrite Hrun, stream_app.
  - apply loop_stream_lines.
  - rewrite Hrun, elem_of_app. right. rewrite !elem_of_cons. tauto.
  - intros ev Hev. destruct (is_ingest ev) eqn:Hingest; [|done].
    pose proof (store_calls_ingest _ _ Hev Hingest) as Hin. subst run.
    rewrite scraping_process_store_calls in Hin. fold st file in Hin.
    rewrite Hsave, Hdownload in Hin. destruct pages as [|p pages]; [done|].
    cbn [length Nat.eqb] in Hin.
    rewrite !elem_of_cons, elem_of_nil in Hin.
    destruct Hin as [->|[->|[]]]; done.
Qed.

Lemma scraping_process_reload_failure_unreported_witness :
  stream (sample_run 2 true false)
  = [line_page 1 3 "https://a.io/1"; line_page 2 3 "https://a.io/2";
     line_failed "https://a.io/2" "timed out"; line_page 3 3 "https://a.io/3";
     line_saved; line_completed]
  ∧ (line_download_error ∉ stream (sample_run 2 true false))
  ∧ (Print line_download_error ∈ sample_run 2 true false).
Proof.
  destruct (@scraping_process_reload_failure_unreported
              (sample_helper sample_pages 2 true false) sample_runtime
              "https://a.io/sitemap.xml" "a.io" sample_pages)
    as (Hstream & _ & Hprint & _); [done | reflexivity | reflexivity |].
  split; [exact Hstream|]. split; [|exact Hprint].
  intros Hin. vm_compute in Hin.
  repeat (apply elem_of_cons in Hin as [Hin|Hin]; [discriminate Hin|]).
  by apply elem_of_nil in Hin.
Defined.

(** ** Validation *)

(** C10: a request to the scrape endpoint whose body has no [text]
    field leaves the handler with a [TypeError], which is sent as a
    server error (500), whereas a request to the query endpoint that
    lacks one of its three fields is refused by [check_required] with an
    [HTTPException] of status 400 that names a missing field. *)
Theorem scrape_sitemap_missing_text `{Helper} `{Runtime} (data : gmap string string) :
  data !! "text" = None →
  scrape_sitemap data = Raise (TypeError "argument of type 'NoneType' is not iterable")
  ∧ http_status (scrape_sitemap data) = 500
  ∧ ∀ body key,
      key ∈ ["website"; "timestamp"; "query"] →
      body !! key = None →
      ∃ key', key' ∈ ["website"; "timestamp"; "query"]
        ∧ truthy (body !! key') = false
        ∧ rag_query body = Raise (missing_required_field key')
        ∧ http_status (rag_query body) = 400.
Proof.
  intros Htext.
  assert (Hraise : scrape_sitemap data
                   = Raise (TypeError "argument of type 'NoneType' is not iterable")).
  { unfold scrape_sitemap. by rewrite Htext. }
  split; [exact Hraise|]. split; [by rewrite Hraise|].
  intros body key Hkey Hnone.
  assert (Hmiss : ∃ key', key' ∈ ["website"; "timestamp"; "query"]
                    ∧ truthy (body !! key') = false
                    ∧ rag_query body = Raise (missing_required_field key')).
  { unfold rag_query, check_required. cbn [check_required_loop].
    destruct (truthy (body !! "website")) eqn:Hw; cbn [negb];
      [|exists "website"; split; [rewrite !elem_of_cons; tauto | done]].
    destruct (truthy (body !! "timestamp")) eqn:Ht; cbn [negb];
      [|exists "timestamp"; split; [rewrite !elem_of_cons; tauto | done]].
    destruct (truthy (body !! "query")) eqn:Hq; cbn [negb];
      [|exists "query"; split; [rewrite !elem_of_cons; tauto | done]].
    rewrite !elem_of_cons, elem_of_nil in Hkey.
    destruct Hkey as [->|[->|[->|[]]]]; rewrite Hnone in *; done. }
  destruct Hmiss as (key' & Hin & Hnone' & Hrag).
  exists key'. by rewrite Hrag.
Qed.

Lemma scrape_sitemap_missing_text_witness :
  @scrape_sitemap (sample_helper sample_pages 0 true true) sample_runtime
    {[ "website" := "a.io" ]}
  = Raise (TypeError "argument of type 'NoneType' is not iterable")
  ∧ http_status (@rag_query (sample_helper sample_pages 0 true true) sample_runtime
                   {[ "website" := "a.io"; "timestamp" := "2023-10-06T18-11-24" ]})
    = 400.
Proof.
  destruct (@scrape_sitemap_missing_text (sample_helper sample_pages 0 true true)
              sample_runtime {[ "website" := "a.io" ]})
    as (Hraise & _ & Hquery); [reflexivity|].
  split; [exact Hraise|].
  destruct (Hquery {[ "website" := "a.io"; "timestamp" := "2023-10-06T18-11-24" ]}
              "query") as (key' & _ & _ & _ & Hstatus).
  - rewrite !elem_of_cons. tauto.
  - reflexivity.
  - exact Hstatus.
Defined.

(** * Further properties *)

(** ** The storage under sequences of calls *)

Lemma apply_ops_snoc (ops : list storage_op) (op : storage_op)
    (_storage : gmap string pyval) :
  apply_ops (ops ++ [op]) _storage = apply_op (apply_ops ops _storage) op.
Proof. apply foldl_snoc. Qed.

Lemma apply_op_no_None (_storage : gmap string pyval) (op : storage_op) :
  (∀ query_id, _storage !! query_id ≠ Some PyNone) →
  ∀ query_id, apply_op _storage op !! query_id ≠ Some PyNone.
Proof.
  intros Hst query_id. destruct op as [id urls|id]; simpl.
  - unfold store_query. destruct (decide (id = query_id)) as [->|Hne].
    + by rewrite lookup_insert_eq.
    + rewrite lookup_insert_ne by done. apply Hst.
  - destruct (decide (id = query_id)) as [->|Hne].
    + by rewrite lookup_delete_eq.
    + rewrite lookup_delete_ne by done. apply Hst.
Qed.

Lemma apply_ops_no_None (ops : list storage_op) (_storage : gmap string pyval) :
  (∀ query_id, _storage !! query_id ≠ Some PyNone) →
  ∀ query_id, apply_ops ops _storage !! query_id ≠ Some PyNone.
Proof.
  induction ops as [|op ops IH] using rev_ind; [done|].
  intros Hst. rewrite apply_ops_snoc. by apply apply_op_no_None, IH.
Qed.

Lemma apply_op_other (_storage : gmap string pyval) (op : storage_op)
    (query_id : string) :
  op_query_id op ≠ query_id →
  apply_op _storage op !! query_id = _storage !! query_id.
Proof.
  destruct op as [id urls|id]; simpl; intros Hne.
  - by apply lookup_insert_ne.
  - by apply lookup_delete_ne.
Qed.

Lemma apply_ops_other (ops : list storage_op) (_storage : gmap string pyval)
    (query_id : string) :
  Forall (λ op, op_query_id op ≠ query_id) ops →
  apply_ops ops _storage !! query_id = _storage !! query_id.
Proof.
  induction ops as [|op ops IH] using rev_ind; [done|].
  intros [Hops Hop]%Forall_app. rewrite Forall_singleton in Hop.
  rewrite apply_ops_snoc. rewrite apply_op_other; [by apply IH | exact Hop].
Qed.

Lemma get_urls_hit (_storage : gmap string pyval) (query_id : string)
    (urls : list string) :
  _storage !! query_id = Some (PyList urls) →
  get_urls _storage query_id
  = (JSONResponse 200 (BodyUrls urls), delete query_id _storage).
Proof. intros Hst. unfold get_urls, retrieve_query. by rewrite Hst. Qed.

Lemma get_urls_miss (_storage : gmap string pyval) (query_id : string) :
  _storage !! query_id = None →
  get_urls _storage query_id = (JSONResponse 200 (BodyUrls []), _storage).
Proof.
  intros Hst. unfold get_urls, retrieve_query. by rewrite Hst, delete_id.
Qed.

(** X1: whatever calls of [store_query] and [retrieve_query] were made
    since startup, [get_urls] answers with status 200 and a list of
    URLs: its 404 branch is never taken. *)
Theorem get_urls_always_200 (ops : list storage_op) (query_id : string) :
  ∃ urls,
    (get_urls (apply_ops ops QueryStorage_init) query_id).1
    = JSONResponse 200 (BodyUrls urls).
Proof.
  assert (Hinit : ∀ id, QueryStorage_init !! id ≠ Some PyNone).
  { intros id. unfold QueryStorage_init. by rewrite lookup_empty. }
  pose proof (apply_ops_no_None ops QueryStorage_init Hinit query_id) as Hinv.
  destruct (apply_ops ops QueryStorage_init !! query_id) as [[|urls]|] eqn:Hst.
  - done.
  - exists urls. by rewrite (get_urls_hit _ _ _ Hst).
  - exists []. by rewrite (get_urls_miss _ _ Hst).
Qed.

(** X2: an entry stays in the storage until it is retrieved: after
    [store_query] for an identifier, any calls for other identifiers
    leave it as it is, the first [get_urls] for it returns the stored
    list, and the second one the empty list. *)
Theorem stored_urls_served_once (_storage : gmap string pyval)
    (query_id : string) (urls : list string) (ops : list storage_op) :
  Forall (λ op, op_query_id op ≠ query_id) ops →
  let before := apply_ops ops (store_query _storage query_id urls) in
  let first := get_urls before query_id in
  before !! query_id = Some (PyList urls)
  ∧ first = (JSONResponse 200 (BodyUrls urls), delete query_id before)
  ∧ get_urls first.2 query_id = (JSONResponse 200 (BodyUrls []), first.2).
Proof.
  intros Hops before first.
  assert (Hbefore : before !! query_id = Some (PyList urls)).
  { subst before. rewrite apply_ops_other by done. apply lookup_insert_eq. }
  assert (Hfirst : first = (JSONResponse 200 (BodyUrls urls), delete query_id before)).
  { by apply get_urls_hit. }
  split; [done|]. split; [done|].
  rewrite Hfirst. apply get_urls_miss, lookup_delete_eq.
Qed.

Lemma stored_urls_served_once_witness :
  (get_urls (apply_ops [StoreQuery "b" ["https://b.io"]; RetrieveQuery "c"]
               (store_query QueryStorage_init "a" ["https://a.io/1"])) "a").1
  = JSONResponse 200 (BodyUrls ["https://a.io/1"]).
Proof.
  destruct (stored_urls_served_once QueryStorage_init "a" ["https://a.io/1"]
              [StoreQuery "b" ["https://b.io"]; RetrieveQuery "c"])
    as (_ & Hfirst & _).
  - repeat constructor; discriminate.
  - cbv zeta in Hfirst. by rewrite Hfirst.
Defined.

(** X3: calls for one identifier never change what the storage holds
    for another one; this holds for [get_urls] too. *)
Theorem storage_calls_are_local (_storage : gmap string pyval)
    (ops : list storage_op) (query_id other : string) :
  Forall (λ op, op_query_id op ≠ other) ops →
  query_id ≠ other →
  apply_ops ops _storage !! other = _storage !! other
  ∧ (get_urls _storage query_id).2 !! other = _storage !! other.
Proof.
  intros Hops Hne. split; [by apply apply_ops_other|].
  unfold get_urls, retrieve_query.
  destruct (default _ _); simpl; by apply lookup_delete_ne.
Qed.

Lemma storage_calls_are_local_witness :
  apply_ops [StoreQuery "a" []; RetrieveQuery "a"]
    (store_query QueryStorage_init "b" ["https://b.io"]) !! "b"
  = Some (PyList ["https://b.io"]).
Proof.
  destruct (storage_calls_are_local
              (store_query QueryStorage_init "b" ["https://b.io"])
              [StoreQuery "a" []; RetrieveQuery "a"] "a" "b") as [Hops _].
  - repeat constructor; discriminate.
  - discriminate.
  - by rewrite Hops.
Defined.

(** X4: an identifier for which the empty list was stored is answered
    exactly like an identifier that was never stored: the same response
    and the same storage afterwards. *)
Theorem get_urls_empty_list_like_absent (_storage : gmap string pyval)
    (query_id : string) :
  _storage !! query_id = None →
  get_urls (store_query _storage query_id []) query_id
  = get_urls _storage query_id.
Proof.
  intros Habsent. rewrite (get_urls_miss _ _ Habsent).
  unfold store_query. rewrite (get_urls_hit _ _ []) by apply lookup_insert_eq.
  by rewrite delete_insert_eq, delete_id.
Qed.

Lemma get_urls_empty_list_like_absent_witness :
  get_urls (store_query QueryStorage_init "4c1f" []) "4c1f"
  = get_urls QueryStorage_init "4c1f".
Proof. apply get_urls_empty_list_like_absent. reflexivity. Defined.

(** ** Validation of the query request *)

Lemma check_required_loop_ok (data : gmap string string) (keys : list string) :
  Forall (λ key, truthy (data !! key) = true) keys →
  check_required_loop data keys = Return ().
Proof.
  induction 1 as [|key keys Hkey _ IH]; [done|].
  cbn [check_required_loop]. by rewrite Hkey.
Qed.

Lemma check_required_loop_first (data : gmap string string)
    (pre post : list string) (key : string) :
  Forall (λ key, truthy (data !! key) = true) pre →
  truthy (data !! key) = false →
  check_required_loop data (pre ++ key :: post) = Raise (missing_required_field key).
Proof.
  intros Hpre Hkey. induction Hpre as [|k pre Hk _ IH]; cbn [app check_required_loop].
  - by rewrite Hkey.
  - by rewrite Hk.
Qed.

Lemma check_required_loop_raises (data : gmap string string) (keys : list string)
    (e : exn) :
  check_required_loop data keys = Raise e →
  ∃ pre key post, keys = pre ++ key :: post
    ∧ Forall (λ key, truthy (data !! key) = true) pre
    ∧ truthy (data !! key) = false
    ∧ e = missing_required_field key.
Proof.
  induction keys as [|k keys IH]; [done|]. cbn [check_required_loop].
  destruct (truthy (data !! k)) eqn:Hk; cbn [negb].
  - intros (pre & key & post & -> & Hpre & Hkey & ->)%IH.
    exists (k :: pre), key, post. split; [done|]. split; [by constructor | done].
  - intros [= <-]. exists [], k, keys. split; [done|]. split; [constructor | done].
Qed.

(** X5: [check_required] returns normally when every key has a
    non-empty value in the body; otherwise it raises the 400 error that
    names the first key, in the order of the list, whose value is missing
    or empty; it raises nothing else; and its second loop changes
    nothing. *)
Theorem check_required_first_missing (data : gmap string string) (keys : list string) :
  check_required data keys = check_required_loop data keys
  ∧ (Forall (λ key, truthy (data !! key) = true) keys →
     check_required data keys = Return ())
  ∧ (∀ pre key post,
       keys = pre ++ key :: post →
       Forall (λ key, truthy (data !! key) = true) pre →
       truthy (data !! key) = false →
       check_required data keys = Raise (missing_required_field key))
  ∧ (∀ e, check_required data keys = Raise e →
       ∃ key, key ∈ keys ∧ truthy (data !! key) = false
              ∧ e = missing_required_field key).
Proof.
  assert (Hsame : check_required data keys = check_required_loop data keys).
  { unfold check_required. by destruct (check_required_loop data keys) as [[]|e]. }
  split; [done|]. rewrite Hsame. split; [apply check_required_loop_ok|]. split.
  - intros pre key post -> Hpre Hkey. by apply check_required_loop_first.
  - intros e (pre & key & post & -> & _ & Hkey & ->)%check_required_loop_raises.
    exists key. split; [|done]. apply elem_of_app. right. apply list_elem_of_here.
Qed.

Lemma check_required_first_missing_witness :
  check_required {[ "website" := "a.io"; "timestamp" := EmptyString ]}
    ["website"; "timestamp"; "query"]
  = Raise (HTTPException 400 "Missing required field: 'timestamp'").
Proof.
  destruct (check_required_first_missing
              {[ "website" := "a.io"; "timestamp" := EmptyString ]}
              ["website"; "timestamp"; "query"]) as (_ & _ & Hfirst & _).
  apply (Hfirst ["website"] "timestamp" ["query"]).
  - reflexivity.
  - repeat constructor.
  - reflexivity.
Defined.

(** ** From the query to its sources *)

Lemma yielded_replies (texts : list string) (n : nat) :
  yielded ((Yielded <$> texts) ++ replicate n StopIteration) = texts.
Proof.
  unfold yielded. rewrite omap_app.
  assert (Hstop : omap (λ r, match r with Yielded text => Some text | _ => None end)
                    (replicate n StopIteration) = []).
  { induction n as [|n IH]; [done|]. exact IH. }
  rewrite Hstop, app_nil_r.
  induction texts as [|text texts IH]; [done|]. csimpl. by rewrite IH.
Qed.

(** X6: the query handler returns a response exactly when [website],
    [timestamp] and [query] all have non-empty values.  The response
    carries the minted identifier in its header; its body, read to the
    end, is the non-empty tokens of the retrieval result in order; and
    once the background task has run, the first [get_urls] for the
    identifier of the header returns the distinct source URLs in
    first-seen order and removes them, and the second returns the empty
    list. *)
Theorem rag_query_then_get_urls `{Helper} `{Runtime} (data : gmap string string) :
  ((∃ r, rag_query data = Return r)
   ↔ truthy (data !! "website") = true ∧ truthy (data !! "timestamp") = true
     ∧ truthy (data !! "query") = true)
  ∧ ∀ r query_storage n,
      rag_query data = Return r →
      let sr := query_weaviate (default EmptyString (data !! "website"))
                  (default EmptyString (data !! "timestamp"))
                  (default EmptyString (data !! "query")) in
      let first := get_urls (background r query_storage) (x_query_id r) in
      x_query_id r = uuid4
      ∧ (length (response_gen sr) < n →
         yielded (run (replicate n Next) (body_gen r)).1
         = non_empty_tokens (response_gen sr))
      ∧ first = (JSONResponse 200 (BodyUrls (unique_loop (extract_document_urls sr))),
                 delete (x_query_id r) query_storage)
      ∧ (get_urls first.2 (x_query_id r)).1 = JSONResponse 200 (BodyUrls []).
Proof.
  split.
  - unfold rag_query. split.
    + intros [r Hr].
      destruct (check_required data _) as [[]|e] eqn:Hcheck; [|done].
      apply dec_stable. intros Hnot.
      assert (Hraise : ∃ e, check_required_loop data ["website"; "timestamp"; "query"]
                            = Raise e).
      { cbn [check_required_loop].
        destruct (truthy (data !! "website")); cbn [negb]; [|by eexists].
        destruct (truthy (data !! "timestamp")); cbn [negb]; [|by eexists].
        destruct (truthy (data !! "query")); cbn [negb]; [|by eexists].
        by destruct Hnot. }
      destruct Hraise as [e He]. unfold check_required in Hcheck.
      by rewrite He in Hcheck.
    + intros (Hw & Ht & Hq). unfold check_required. cbn [check_required_loop].
      rewrite Hw, Ht, Hq. cbn [negb mbind result_bind]. by eexists.
  - intros r query_storage n Hr sr first. unfold rag_query in Hr.
    destruct (check_required data _) as [[]|e]; [|done].
    cbn [mbind result_bind] in Hr. injection Hr as <-.
    cbn [x_query_id body_gen background] in *. fold sr in first |- *.
    split; [done|]. split.
    + intros Hn. destruct n as [|n]; [lia|].
      pose proof (length_non_empty_tokens (response_gen sr)) as Hlen.
      destruct (run_next_advance n (response_gen sr) (NotStarted (response_gen sr))
                  eq_refl) as (st' & -> & _ & _).
      cbn [fst]. rewrite take_ge by lia. apply yielded_replies.
    + assert (Hfirst : first
                = (JSONResponse 200 (BodyUrls (unique_loop (extract_document_urls sr))),
                   delete uuid4 query_storage)).
      { subst first. unfold process_url_extraction, store_query.
        rewrite (get_urls_hit _ _ (unique_loop (extract_document_urls sr)))
          by apply lookup_insert_eq.
        by rewrite delete_insert_eq. }
      split; [done|]. rewrite Hfirst. cbn [snd].
      by rewrite get_urls_miss by apply lookup_delete_eq.
Qed.

Lemma rag_query_then_get_urls_witness :
  ∃ r, @rag_query (sample_helper [] 0 true true) sample_runtime
         {[ "website" := "a.io"; "timestamp" := "2023-10-06T18-11-24";
            "query" := "What is RAG?" ]} = Return r
    ∧ yielded (run (replicate 5 Next) (body_gen r)).1 = ["RAG"; " works"]
    ∧ (get_urls (background r QueryStorage_init) (x_query_id r)).1
      = JSONResponse 200 (BodyUrls ["https://a.io/1"; "https://a.io/2"]).
Proof.
  pose (data := ({[ "website" := "a.io"; "timestamp" := "2023-10-06T18-11-24";
                    "query" := "What is RAG?" ]} : gmap string string)).
  destruct (@rag_query_then_get_urls (sample_helper [] 0 true true) sample_runtime data)
    as [Hiff Hflow].
  destruct (proj2 Hiff) as [r Hr]; [repeat split|].
  exists r. split; [exact Hr|].
  destruct (Hflow r QueryStorage_init 5 Hr) as (_ & Hbody & Hfirst & _).
  split.
  - rewrite Hbody; [reflexivity | simpl; lia].
  - cbv zeta in Hfirst. rewrite Hfirst. reflexivity.
Defined.

(** ** More on the normalisation *)

Lemma string_app_assoc (a b c : string) : (a +:+ b) +:+ c = a +:+ b +:+ c.
Proof.
  induction a as [|x a IH]; [done|].
  change (String x ((a +:+ b) +:+ c) = String x (a +:+ b +:+ c)). by rewrite IH.
Qed.

Lemma string_app_nil_r (a : string) : a +:+ EmptyString = a.
Proof.
  induction a as [|x a IH]; [done|].
  change (String x (a +:+ EmptyString) = String x a). by rewrite IH.
Qed.

(** Both markers are in the normalised URL. *)
Lemma sitemap_url_has_sitemap_xml (website sitemap : string) :
  sitemap_url website = Return sitemap → str_in "sitemap.xml" sitemap = true.
Proof.
  rewrite sitemap_url_second_step. cbv zeta.
  set (s := if str_in "https://" website then website else "https://" +:+ website).
  destruct (str_in "sitemap.xml" s) eqn:Hs; [by intros [= <-]|].
  destruct (ends_with_slash s); intros [= <-]; by apply str_in_app_r.
Qed.

Lemma sitemap_url_fixed (sitemap : string) :
  str_in "https://" sitemap = true →
  str_in "sitemap.xml" sitemap = true →
  sitemap_url sitemap = Return sitemap.
Proof.
  intros Hscheme Hxml. rewrite sitemap_url_second_step. cbv zeta.
  by rewrite Hscheme, Hxml.
Qed.

(** X7: the normalised URL always has ["https://"] and ["sitemap.xml"]
    in it, the string that was given occurs in it unchanged, and
    normalising it again changes nothing. *)
Theorem sitemap_url_idempotent (website sitemap : string) :
  sitemap_url website = Return sitemap →
  str_in "https://" sitemap = true
  ∧ str_in "sitemap.xml" sitemap = true
  ∧ str_in website sitemap = true
  ∧ sitemap_url sitemap = Return sitemap.
Proof.
  intros Hurl.
  pose proof (sitemap_url_has_scheme _ _ Hurl) as Hscheme.
  pose proof (sitemap_url_has_sitemap_xml _ _ Hurl) as Hxml.
  split; [done|]. split; [done|]. split; [|by apply sitemap_url_fixed].
  revert Hurl. rewrite sitemap_url_second_step. cbv zeta.
  set (s := if str_in "https://" website then website else "https://" +:+ website).
  assert (Hs : ∀ x, str_in website (s +:+ x) = true).
  { intros x. subst s. destruct (str_in "https://" website).
    - apply str_in_self_app.
    - rewrite string_app_assoc. apply str_in_app_r, str_in_self_app. }
  assert (Hs0 : str_in website s = true).
  { subst s. destruct (str_in "https://" website).
    - rewrite <-(string_app_nil_r website) at 2. apply str_in_self_app.
    - apply str_in_app_r. rewrite <-(string_app_nil_r website) at 2.
      apply str_in_self_app. }
  destruct (str_in "sitemap.xml" s); [by intros [= <-]|].
  destruct (ends_with_slash s); intros [= <-]; apply Hs.
Qed.

Lemma sitemap_url_idempotent_witness :
  sitemap_url "https://ai21.com/sitemap.xml" = Return "https://ai21.com/sitemap.xml".
Proof. apply (sitemap_url_idempotent "ai21.com/"). reflexivity. Defined.

(** ** The host of the website *)

Lemma str_in_slash_cons (c : ascii) (s : string) :
  str_in "/" (String c s) = if Ascii.eqb c "/" then true else str_in "/" s.
Proof.
  cbn [str_in String.prefix].
  destruct (ascii_dec "/" c) as [<-|Hne].
  - by destruct s.
  - destruct (Ascii.eqb_spec c "/") as [->|_]; done.
Qed.

Lemma split_slash_no_slash (s : string) :
  str_in "/" s = false → split_slash s = [s].
Proof.
  induction s as [|c s IH]; [done|]. rewrite str_in_slash_cons.
  cbn [split_slash]. destruct (Ascii.eqb c "/"); [done|].
  intros Hs. by rewrite (IH Hs).
Qed.

Lemma split_slash_app_slash (a b : string) :
  str_in "/" a = false →
  split_slash (a +:+ String "/" b) = a :: split_slash b.
Proof.
  induction a as [|c a IH]; [done|]. rewrite str_in_slash_cons.
  change (String c a +:+ String "/" b) with (String c (a +:+ String "/" b)).
  cbn [split_slash]. destruct (Ascii.eqb c "/"); [done|].
  intros Ha. by rewrite (IH Ha).
Qed.

Lemma no_slash_no_scheme (host : string) :
  str_in "/" host = false → str_in "https://" host = false.
Proof.
  intros Hhost. destruct (str_in "https://" host) eqn:Hin; [|done].
  apply str_in_split_slash in Hin.
  rewrite (split_slash_no_slash _ Hhost) in Hin. simpl in Hin. lia.
Qed.

Lemma no_slash_no_scheme_slash (host : string) :
  str_in "/" host = false → str_in "https://" (host +:+ "/") = false.
Proof.
  intros Hhost. destruct (str_in "https://" (host +:+ "/")) eqn:Hin; [|done].
  apply str_in_split_slash in Hin.
  rewrite (split_slash_app_slash _ _ Hhost) in Hin. simpl in Hin. lia.
Qed.

Lemma last_char_app (a b : string) :
  b ≠ EmptyString → last_char (a +:+ b) = last_char b.
Proof.
  intros Hb. induction a as [|c a IH]; [done|].
  change (String c a +:+ b) with (String c (a +:+ b)).
  destruct (a +:+ b) as [|c' s] eqn:Hab; [|exact IH].
  destruct a; [by subst | done].
Qed.

Lemma ends_with_slash_app (a b : string) :
  b ≠ EmptyString → ends_with_slash (a +:+ b) = ends_with_slash b.
Proof. intros Hb. unfold ends_with_slash. by rewrite last_char_app. Qed.

Lemma no_slash_not_ends_with_slash (host : string) :
  str_in "/" host = false → ends_with_slash host = false.
Proof.
  unfold ends_with_slash. induction host as [|c s IH]; [done|].
  rewrite str_in_slash_cons. destruct (Ascii.eqb c "/") eqn:Hc; [done|].
  intros Hs. destruct s as [|c' s]; [by simpl; rewrite Hc|].
  change (last_char (String c (String c' s))) with (last_char (String c' s)).
  by apply IH.
Qed.

(** A string without a slash in it is a prefix of [s +:+ "/"] only if it
    is a prefix of [s]. *)
Lemma prefix_app_slash (p s : string) :
  str_in "/" p = false →
  String.prefix p (s +:+ "/") = String.prefix p s.
Proof.
  revert p. induction s as [|c s IH]; intros [|a p]; try done.
  - rewrite str_in_slash_cons. cbn [String.append String.prefix].
    destruct (Ascii.eqb_spec a "/") as [->|Hne]; [done|].
    intros _. change (EmptyString +:+ "/") with "/". cbn [String.prefix].
    by destruct (ascii_dec a "/").
  - rewrite str_in_slash_cons. destruct (Ascii.eqb a "/"); [done|].
    intros Hp. change (String c s +:+ "/") with (String c (s +:+ "/")).
    cbn [String.prefix]. destruct (ascii_dec a c); [by apply IH | done].
Qed.

Lemma str_in_app_slash (p s : string) :
  p ≠ EmptyString → str_in "/" p = false →
  str_in p (s +:+ "/") = str_in p s.
Proof.
  intros Hne Hp. induction s as [|c s IH].
  - destruct p as [|a p]; [done|]. revert Hp. rewrite str_in_slash_cons.
    destruct (Ascii.eqb_spec a "/") as [->|Ha]; [done|]. intros _.
    change (EmptyString +:+ "/") with "/". cbn [str_in String.prefix].
    by destruct (ascii_dec a "/").
  - change (String c s +:+ "/") with (String c (s +:+ "/")). cbn [str_in].
    rewrite IH. change (String c (s +:+ "/")) with (String c s +:+ "/").
    by rewrite prefix_app_slash.
Qed.

Lemma str_in_sitemap_xml_scheme (s : string) :
  str_in "sitemap.xml" ("https://" +:+ s) = str_in "sitemap.xml" s.
Proof. reflexivity. Qed.

Section host.
Context (host : string).
Hypothesis host_not_empty : host ≠ EmptyString.
Hypothesis host_no_slash : str_in "/" host = false.
Hypothesis host_no_sitemap_xml : str_in "sitemap.xml" host = false.

Local Abbreviation canonical := ("https://" +:+ host +:+ "/sitemap.xml").

Lemma sitemap_url_host : sitemap_url host = Return canonical.
Proof.
  rewrite sitemap_url_second_step. cbv zeta.
  rewrite (no_slash_no_scheme _ host_no_slash).
  rewrite str_in_sitemap_xml_scheme, host_no_sitemap_xml.
  rewrite ends_with_slash_app by done.
  rewrite (no_slash_not_ends_with_slash _ host_no_slash).
  by rewrite string_app_assoc.
Qed.

Lemma sitemap_url_host_slash : sitemap_url (host +:+ "/") = Return canonical.
Proof.
  rewrite sitemap_url_second_step. cbv zeta.
  rewrite (no_slash_no_scheme_slash _ host_no_slash).
  rewrite str_in_sitemap_xml_scheme, str_in_app_slash by done.
  rewrite host_no_sitemap_xml.
  rewrite !ends_with_slash_app by (try done; by destruct host).
  change (ends_with_slash "/") with true. cbv iota.
  by rewrite !string_app_assoc.
Qed.

Lemma sitemap_url_scheme_host : sitemap_url ("https://" +:+ host) = Return canonical.
Proof.
  rewrite sitemap_url_second_step. cbv zeta. rewrite str_in_self_app.
  rewrite str_in_sitemap_xml_scheme, host_no_sitemap_xml.
  rewrite ends_with_slash_app by done.
  rewrite (no_slash_not_ends_with_slash _ host_no_slash).
  by rewrite string_app_assoc.
Qed.

Lemma sitemap_url_scheme_host_slash :
  sitemap_url ("https://" +:+ host +:+ "/") = Return canonical.
Proof.
  rewrite sitemap_url_second_step. cbv zeta. rewrite str_in_self_app.
  rewrite str_in_sitemap_xml_scheme, str_in_app_slash by done.
  rewrite host_no_sitemap_xml.
  rewrite !ends_with_slash_app by (try done; by destruct host).
  change (ends_with_slash "/") with true. cbv iota.
  by rewrite !string_app_assoc.
Qed.

Lemma sitemap_url_canonical : sitemap_url canonical = Return canonical.
Proof.
  apply sitemap_url_fixed; [apply str_in_self_app|].
  by do 2 apply str_in_app_r.
Qed.

Lemma split_slash_canonical :
  split_slash canonical = ["https:"; EmptyString; host; "sitemap.xml"].
Proof.
  change canonical
    with ("https:" +:+ String "/" (EmptyString +:+ String "/"
            (host +:+ String "/" "sitemap.xml"))).
  by rewrite !split_slash_app_slash.
Qed.
End host.

(** X8: for a host name that is not empty and has neither a slash nor
    ["sitemap.xml"] in it, the five ways of writing the website (the
    host, the host with a slash, each of the two after ["https://"], and
    the full sitemap URL) are normalised to the same URL
    ["https://<host>/sitemap.xml"], whose third part between slashes is
    the host; and the scrape handler runs the generator for that URL
    with the host as [website_name]. *)
Theorem scrape_sitemap_host `{Helper} `{Runtime} (host website : string) :
  host ≠ EmptyString →
  str_in "/" host = false →
  str_in "sitemap.xml" host = false →
  website ∈ [host; host +:+ "/"; "https://" +:+ host; "https://" +:+ host +:+ "/";
             "https://" +:+ host +:+ "/sitemap.xml"] →
  let canonical := "https://" +:+ host +:+ "/sitemap.xml" in
  sitemap_url website = Return canonical
  ∧ split_slash canonical = ["https:"; EmptyString; host; "sitemap.xml"]
  ∧ ∀ data, data !! "text" = Some website →
      scrape_sitemap data
      = Return (scraping_process canonical host (get_sitemap_attributes canonical)).
Proof.
  intros Hne Hslash Hxml Hform canonical.
  assert (Hurl : sitemap_url website = Return canonical).
  { rewrite !elem_of_cons, elem_of_nil in Hform.
    destruct Hform as [->|[->|[->|[->|[->|[]]]]]].
    - by apply sitemap_url_host.
    - by apply sitemap_url_host_slash.
    - by apply sitemap_url_scheme_host.
    - by apply sitemap_url_scheme_host_slash.
    - by apply sitemap_url_canonical. }
  pose proof (split_slash_canonical host Hslash) as Hsplit.
  split; [done|]. split; [done|].
  intros data Htext. unfold scrape_sitemap, list_index.
  rewrite Htext, Hurl. cbn [mbind result_bind]. subst canonical.
  by rewrite Hsplit.
Qed.

Lemma scrape_sitemap_host_witness :
  @scrape_sitemap (sample_helper [] 0 true true) sample_runtime
    {[ "text" := "https://arvinas.com/" ]}
  = Return (@scraping_process (sample_helper [] 0 true true) sample_runtime
              "https://arvinas.com/sitemap.xml" "arvinas.com" []).
Proof.
  destruct (@scrape_sitemap_host (sample_helper [] 0 true true) sample_runtime
              "arvinas.com" "https://arvinas.com/") as (_ & _ & Hhandler).
  - discriminate.
  - reflexivity.
  - reflexivity.
  - rewrite !elem_of_cons. tauto.
  - apply (Hhandler {[ "text" := "https://arvinas.com/" ]}). reflexivity.
Defined.

(** X9: the scrape handler returns a streamed response exactly when the
    body has a [text] field, whatever its value: the normalisation never
    fails on a string and [link_split[2]] always exists.  The stream of
    the response always ends with the completion line. *)
Theorem scrape_sitemap_responds `{Helper} `{Runtime} (data : gmap string string) :
  ((∃ run, scrape_sitemap data = Return run) ↔ is_Some (data !! "text"))
  ∧ (∀ run, scrape_sitemap data = Return run →
       last (stream run) = Some line_completed)
  ∧ http_status (scrape_sitemap data)
    = match data !! "text" with Some _ => 200 | None => 500 end.
Proof.
  destruct (data !! "text") as [website|] eqn:Htext.
  - destruct (scrape_sitemap_streams data website Htext)
      as (sitemap & website_name & _ & _ & Hrun).
    rewrite Hrun. split; [|split; [|done]].
    + split; [by eexists | by eexists].
    + intros run [= <-]. apply scraping_process_last_line.
  - assert (Hraise : scrape_sitemap data
                     = Raise (TypeError "argument of type 'NoneType' is not iterable")).
    { unfold scrape_sitemap. by rewrite Htext. }
    rewrite Hraise. split; [|split; [done|done]].
    split; [by intros [run ?] | by intros [? ?]].
Qed.

(** ** The body of the query response *)

Lemma non_empty_tokens_cons (text : option string) (l : list (option string)) :
  non_empty_tokens (text :: l)
  = (if truthy text then [default EmptyString text] else []) ++ non_empty_tokens l.
Proof.
  unfold non_empty_tokens. csimpl. destruct (truthy text) eqn:Ht; [|done].
  by destruct text.
Qed.

Lemma non_empty_tokens_not_empty (l : list (option string)) :
  EmptyString ∉ non_empty_tokens l.
Proof.
  induction l as [|text l IH]; [apply not_elem_of_nil|].
  rewrite non_empty_tokens_cons, elem_of_app. intros [Hin|Hin]; [|done].
  destruct text as [[|c s]|]; simpl in Hin.
  - by apply elem_of_nil in Hin.
  - by apply list_elem_of_singleton in Hin.
  - by apply elem_of_nil in Hin.
Qed.

Lemma yielded_cons (r : gen_reply) (rs : list gen_reply) :
  yielded (r :: rs)
  = match r with Yielded text => text :: yielded rs | _ => yielded rs end.
Proof. by destruct r. Qed.

Lemma run_cons (sig : signal) (sigs : list signal) (st : gen_state) :
  (run (sig :: sigs) st).1
  = (resume st sig).1 :: (run sigs (resume st sig).2).1.
Proof.
  cbn [run]. destruct (resume st sig) as [r st']. cbn [fst snd].
  destruct (run sigs st') as [rs st'']. reflexivity.
Qed.

Lemma run_finished_yields_nothing (sigs : list signal) :
  yielded (run sigs Finished).1 = [].
Proof.
  induction sigs as [|sig sigs IH]; [done|]. rewrite run_cons, yielded_cons.
  by destruct sig as [|e].
Qed.

(** Whatever the consumer sends, what it receives from a generator that
    still has [l] to go through is a beginning of the non-empty tokens
    of [l]. *)
Lemma run_yields_prefix (sigs : list signal) (l : list (option string))
    (st : gen_state) :
  st = NotStarted l ∨ st = AtYield l →
  yielded (run sigs st).1 `prefix_of` non_empty_tokens l.
Proof.
  revert l st. induction sigs as [|sig sigs IH]; intros l st Hst.
  - apply prefix_nil.
  - rewrite run_cons, yielded_cons. destruct sig as [|e].
    + assert (Hresume : resume st Next = advance l) by by destruct Hst as [->| ->].
      rewrite Hresume. destruct (non_empty_tokens l) as [|t ts] eqn:Hl.
      * rewrite (advance_nil _ Hl). cbn [fst snd].
        by rewrite run_finished_yields_nothing.
      * destruct (advance_cons _ _ _ Hl) as (rest & -> & <-). cbn [fst snd].
        apply prefix_cons, (IH rest). by right.
    + assert (Hresume : ∃ r, resume st (Throw e) = (r, Finished)
                             ∧ (r = StopIteration ∨ r = Raised e)).
      { destruct Hst as [->| ->]; destruct e; cbn [resume]; eauto. }
      destruct Hresume as (r & -> & Hr). cbn [fst snd].
      rewrite run_finished_yields_nothing.
      destruct Hr as [->| ->]; apply prefix_nil.
Qed.

(** X10: whatever the consumer does (requests, cancellations, other
    exceptions thrown at the generator, in any order), the items it
    receives are a beginning of the non-empty tokens of the retrieval
    result: nothing is reordered, repeated or invented, and no item is
    the empty string. *)
Theorem process_streaming_response_any_consumer (sigs : list signal)
    (response_gen : list (option string)) :
  let texts := yielded (run sigs (NotStarted response_gen)).1 in
  texts `prefix_of` non_empty_tokens response_gen
  ∧ EmptyString ∉ texts.
Proof.
  intros texts.
  assert (Hprefix : texts `prefix_of` non_empty_tokens response_gen).
  { apply run_yields_prefix. by left. }
  split; [done|]. destruct Hprefix as [k Hk]. intros Hin.
  apply (non_empty_tokens_not_empty response_gen).
  rewrite Hk, elem_of_app. by left.
Qed.

Lemma body_text_non_empty_tokens (l : list (option string)) :
  body_text (non_empty_tokens l) = produced_text l.
Proof.
  unfold produced_text. induction l as [|text l IH]; [done|].
  rewrite non_empty_tokens_cons, fmap_cons. cbn [body_text foldr].
  fold (body_text (default EmptyString <$> l)). rewrite <-IH.
  by destruct text as [[|c s]|].
Qed.

(** X11: the text of the body that a consumer reads to the end is the
    text of everything the retrieval result produced: passing over the
    empty and missing tokens loses nothing. *)
Theorem process_streaming_response_body_text (response_gen : list (option string))
    (n : nat) :
  length response_gen < n →
  body_text (yielded (run (replicate n Next) (NotStarted response_gen)).1)
  = produced_text response_gen.
Proof.
  intros Hn. destruct n as [|n]; [lia|].
  pose proof (length_non_empty_tokens response_gen) as Hlen.
  destruct (run_next_advance n response_gen (NotStarted response_gen) eq_refl)
    as (st' & -> & _ & _).
  cbn [fst]. rewrite take_ge by lia. rewrite yielded_replies.
  apply body_text_non_empty_tokens.
Qed.

Lemma process_streaming_response_body_text_witness :
  body_text (yielded (run (replicate 5 Next)
               (NotStarted [Some "RAG"; None; Some EmptyString; Some " works"])).1)
  = "RAG works".
Proof.
  rewrite (process_streaming_response_body_text
             [Some "RAG"; None; Some EmptyString; Some " works"] 5).
  - reflexivity.
  - simpl. lia.
Defined.

(** ** The loop that removes duplicates *)

Lemma unique_loop_NoDup_id (l acc : list string) :
  NoDup (acc ++ l) → foldl unique_step acc l = acc ++ l.
Proof.
  revert acc. induction l as [|x l IH]; intros acc Hnd; simpl.
  - by rewrite app_nil_r.
  - assert (Hx : x ∉ acc).
    { apply NoDup_app in Hnd as (_ & Hdisj & _). intros Hin.
      apply (Hdisj x Hin), list_elem_of_here. }
    unfold unique_step. rewrite decide_False by done.
    rewrite IH; rewrite <-app_assoc; done.
Qed.

Lemma unique_loop_length (l acc : list string) :
  length (foldl unique_step acc l) ≤ length acc + length l.
Proof.
  revert acc. induction l as [|x l IH]; intros acc; simpl; [lia|].
  etrans; [apply IH|]. unfold unique_step. case_decide; [lia|].
  rewrite length_app. simpl. lia.
Qed.

(** X12: the loop leaves a list without duplicates as it is, so running
    it on its own result changes nothing; and its result is never
    longer than the list it was given. *)
Theorem unique_loop_idempotent (extracted_urls : list string) :
  (NoDup extracted_urls → unique_loop extracted_urls = extracted_urls)
  ∧ unique_loop (unique_loop extracted_urls) = unique_loop extracted_urls
  ∧ length (unique_loop extracted_urls) ≤ length extracted_urls.
Proof.
  unfold unique_loop. split; [|split].
  - intros Hnd. by rewrite unique_loop_NoDup_id.
  - rewrite (unique_loop_NoDup_id (foldl unique_step [] extracted_urls)); [done|].
    apply unique_loop_NoDup, NoDup_nil_2.
  - apply (unique_loop_length extracted_urls []).
Qed.

Lemma unique_loop_idempotent_witness :
  unique_loop ["https://a.io/2"; "https://a.io/1"] = ["https://a.io/2"; "https://a.io/1"].
Proof.
  destruct (unique_loop_idempotent ["https://a.io/2"; "https://a.io/1"]) as [Hid _].
  apply Hid. repeat constructor; rewrite ?elem_of_cons, ?elem_of_nil; intuition discriminate.
Defined.

(** ** The stream and the table of a scrape run *)

Lemma dict_set_fresh (d : list (string * string)) (k v : string) :
  k ∉ d.*1 → dict_set d k v = d ++ [(k, v)].
Proof.
  induction d as [|[k' v'] d IH]; [done|]. cbn [dict_set fmap list_fmap fst].
  fold (@fmap list _ _ _ (@fst string string) d).
  intros [Hne Hk]%not_elem_of_cons.
  destruct (String.eqb_spec k' k) as [->|_]; [done|]. by rewrite IH.
Qed.

Lemma dict_set_in (d : list (string * string)) (k v : string) :
  (k, v) ∈ dict_set d k v.
Proof.
  induction d as [|[k' v'] d IH]; cbn [dict_set]; [apply list_elem_of_here|].
  destruct (String.eqb k' k); [apply list_elem_of_here|].
  by apply list_elem_of_further.
Qed.

Lemma dict_set_other (d : list (string * string)) (k v k' v' : string) :
  k' ≠ k → (k', v') ∈ d → (k', v') ∈ dict_set d k v.
Proof.
  intros Hne. induction d as [|[k0 v0] d IH]; [by intros ?%elem_of_nil|].
  cbn [dict_set]. destruct (String.eqb_spec k0 k) as [->|_].
  - intros [[= -> _]|Hin]%elem_of_cons; [done|]. by apply list_elem_of_further.
  - intros [->|Hin]%elem_of_cons; [apply list_elem_of_here|].
    by apply list_elem_of_further, IH.
Qed.

Section scrape_run.
Context `{Helper} `{Runtime} (website_name : string) (total : nat).

Local Abbreviation loop :=
  (foldl (scrape_step website_name total)
         {| text_dict := []; loop_i := 0; events := [] |}).
Local Abbreviation qualified := (qualify website_name).

(** The lines of the loop, page after page. *)
Lemma loop_stream_exact (l : list string) :
  stream (events (loop l)) = concat (imap (page_lines website_name total) l).
Proof.
  induction l as [|item l IH] using rev_ind; [done|].
  rewrite foldl_snoc, scrape_step_events, stream_app, IH, loop_i_length.
  rewrite imap_app, concat_app. f_equal.
  cbn [imap concat]. rewrite Nat.add_0_r, app_nil_r. unfold page_lines.
  by destruct (try_scrape _ _).
Qed.

(** The keys of [text_dict] are links of the pages. *)
Lemma loop_text_dict_keys (l : list string) (url : string) :
  url ∈ (text_dict (loop l)).*1 → url ∈ qualified <$> l.
Proof.
  intros ([url' text] & -> & Hin)%list_elem_of_fmap.
  destruct (loop_text_dict_sound _ _ _ _ _ Hin) as (j & p & Hj & <- & _).
  apply list_elem_of_fmap. exists p. split; [done|].
  apply list_elem_of_lookup. by exists j.
Qed.

(** With links that are all different, the rows are in the order of the
    pages. *)
Lemma loop_text_dict_rows (l : list string) :
  NoDup (qualified <$> l) →
  text_dict (loop l) = omap id (imap (page_row website_name) l).
Proof.
  induction l as [|item l IH] using rev_ind; [done|].
  rewrite fmap_app. intros (Hl & Hfresh & _)%NoDup_app.
  rewrite foldl_snoc, scrape_step_text_dict, loop_i_length.
  rewrite imap_app, omap_app, <-(IH Hl). cbn [imap]. rewrite Nat.add_0_r.
  unfold page_row. destruct (try_scrape _ _) as [text|e]; csimpl.
  - apply dict_set_fresh. intros Hkey%loop_text_dict_keys.
    apply (Hfresh _ Hkey). apply list_elem_of_here.
  - by rewrite app_nil_r.
Qed.

(** The row of a link has the text of the last attempt on it that
    succeeded. *)
Lemma loop_text_dict_last (l : list string) (j : nat) (p text : string) :
  l !! j = Some p →
  try_scrape (S j) (qualified p) = inl text →
  (∀ j' p', j < j' → l !! j' = Some p' → qualified p' = qualified p →
     ∃ e, try_scrape (S j') (qualified p') = inr e) →
  (qualified p, text) ∈ text_dict (loop l).
Proof.
  revert j p text.
  induction l as [|item l IH] using rev_ind; intros j p text; [done|].
  rewrite foldl_snoc, scrape_step_text_dict, loop_i_length.
  intros [[Hlt Hj]|[-> ->]]%lookup_snoc_Some Htry Hlater.
  - assert (Hin : (qualified p, text) ∈ text_dict (loop l)).
    { apply (IH j p text Hj Htry). intros j' p' Hjj' Hj'.
      apply Hlater; [done|]. by apply lookup_app_l_Some. }
    destruct (try_scrape (S (length l)) (qualified item)) as [text'|e] eqn:Hitem;
      [|done].
    apply dict_set_other; [|done]. intros Heq.
    destruct (Hlater (length l) item Hlt) as [e He]; [|done|].
    + by apply list_lookup_middle.
    + rewrite He in Hitem. discriminate Hitem.
  - rewrite Htry. apply dict_set_in.
Qed.
End scrape_run.

Lemma scraping_process_scrape_calls `{Helper} `{Runtime}
    (sitemap website_name : string) (pages : list string) :
  scrape_calls (scraping_process sitemap website_name pages)
  = qualify website_name <$> pages.
Proof.
  destruct pages as [|p pages]; [done|].
  rewrite scraping_process_pages, !scrape_calls_app by done. unfold scrape_loop.
  rewrite loop_scrape_calls, persist_and_ingest_scrape_calls.
  by rewrite app_nil_r.
Qed.

(** X13: the whole stream of a run, line by line.  For an empty sitemap
    it is the line ["Found 0 pages to scrape in <sitemap>"] and the
    completion line.  Otherwise it is, page after page in the order of
    the sitemap, the line ["<i> of <total>: <link>"] of the page followed,
    if the attempt failed, by its line ["Failed to scrape <link>:
    <description>"]; then, if the save failed, the line ["The scraping
    process did not complete as expected for <sitemap>"]; if it
    succeeded, the line ["Finished saving to GCP Bucket"] and, if the
    download succeeded too, the line ["Chunking and preparing documents
    to insert into vector store."] and every update of
    [store_to_weaviate] as it is and in its order; and last the line
    ["All steps completed successfully."]. *)
Theorem scraping_process_stream `{Helper} `{Runtime}
    (sitemap website_name : string) (pages : list string) :
  let df := text_dict (scrape_loop website_name pages) in
  let file := output_file website_name in
  let lines_of_page (j : nat) (page : string) : list string :=
    let item := qualify website_name page in
    (str_of_nat (S j) +:+ " of " +:+ str_of_nat (length pages) +:+ ": "
       +:+ item +:+ nl) ::
    match scrape_link (S j) item with
    | Scraped scraped_data =>
        match scraped_data !! item with
        | Some _ => []
        | None => ["Failed to scrape " +:+ item +:+ ": " +:+ repr item +:+ nl]
        end
    | ScrapeFault e => ["Failed to scrape " +:+ item +:+ ": " +:+ e +:+ nl]
    end in
  stream (scraping_process sitemap website_name pages)
  = if length pages =? 0
    then ["Found 0 pages to scrape in " +:+ sitemap +:+ nl;
          "All steps completed successfully." +:+ nl]
    else concat (imap lines_of_page pages)
         ++ (if save_to_gcloud df file then
               ("Finished saving to GCP Bucket" +:+ nl) ::
               if download_blob_from_gcloud file
               then ("Chunking and preparing documents to insert into vector store."
                       +:+ nl) :: store_to_weaviate file
               else []
             else ["The scraping process did not complete as expected for "
                     +:+ sitemap +:+ nl])
         ++ ["All steps completed successfully." +:+ nl].
Proof.
  intros df file lines_of_page.
  destruct pages as [|p pages]; [done|]. cbn [length Nat.eqb].
  rewrite scraping_process_pages, !stream_app by done.
  rewrite persist_and_ingest_stream. unfold scrape_loop at 1.
  rewrite loop_stream_exact.
  assert (Hlines : imap (page_lines website_name (length (p :: pages))) (p :: pages)
                   = imap lines_of_page (p :: pages)).
  { apply imap_ext. intros j page _. subst lines_of_page.
    unfold page_lines, try_scrape. cbv zeta.
    destruct (scrape_link (S j) (qualify website_name page)) as [d|e]; [|done].
    by destruct (d !! qualify website_name page). }
  by rewrite Hlines.
Qed.

Lemma scraping_process_stream_witness :
  stream (sample_run 2 true true)
  = ["1 of 3: https://a.io/1" +:+ nl; "2 of 3: https://a.io/2" +:+ nl;
     "Failed to scrape https://a.io/2: timed out" +:+ nl;
     "3 of 3: https://a.io/3" +:+ nl;
     "Finished saving to GCP Bucket" +:+ nl;
     "Chunking and preparing documents to insert into vector store." +:+ nl;
     "Inserted 2 documents" +:+ nl;
     "All steps completed successfully." +:+ nl]
  ∧ stream (sample_run 2 true false)
    = ["1 of 3: https://a.io/1" +:+ nl; "2 of 3: https://a.io/2" +:+ nl;
       "Failed to scrape https://a.io/2: timed out" +:+ nl;
       "3 of 3: https://a.io/3" +:+ nl;
       "Finished saving to GCP Bucket" +:+ nl;
       "All steps completed successfully." +:+ nl].
Proof.
  unfold sample_run. split.
  - rewrite (@scraping_process_stream (sample_helper sample_pages 2 true true)
               sample_runtime). reflexivity.
  - rewrite (@scraping_process_stream (sample_helper sample_pages 2 true false)
               sample_runtime). reflexivity.
Defined.

(** X14: when the links of the pages are all different, the table that
    is saved has the rows of the pages whose attempt succeeded, in the
    order of the sitemap, each with the text of its attempt. *)
Theorem scraping_process_table_in_order `{Helper} `{Runtime}
    (sitemap website_name : string) (pages : list string) :
  pages ≠ [] →
  NoDup (qualify website_name <$> pages) →
  saved_tables (scraping_process sitemap website_name pages)
  = [omap id (imap (page_row website_name) pages)].
Proof.
  intros Hpages Hnd.
  rewrite scraping_process_pages, !saved_tables_app by done.
  rewrite persist_and_ingest_saved_tables. unfold scrape_loop.
  by rewrite loop_saved_tables, loop_text_dict_rows.
Qed.

Lemma scraping_process_table_in_order_witness :
  saved_tables (sample_run 2 true true)
  = [[("https://a.io/1", "text of https://a.io/1");
      ("https://a.io/3", "text of https://a.io/3")]].
Proof.
  unfold sample_run.
  rewrite (@scraping_process_table_in_order
             (sample_helper sample_pages 2 true true) sample_runtime
             "https://a.io/sitemap.xml" "a.io" sample_pages).
  - reflexivity.
  - discriminate.
  - repeat constructor; rewrite ?elem_of_cons, ?elem_of_nil; intuition discriminate.
Defined.

(** X15: when a link occurs more than once among the pages, its row in
    the saved table has the text of the last attempt on it that
    succeeded. *)
Theorem scraping_process_last_text_wins `{Helper} `{Runtime}
    (sitemap website_name : string) (pages : list string)
    (j : nat) (p text : string) :
  pages !! j = Some p →
  try_scrape (S j) (qualify website_name p) = inl text →
  (∀ j' p', j < j' → pages !! j' = Some p' →
     qualify website_name p' = qualify website_name p →
     ∃ e, try_scrape (S j') (qualify website_name p') = inr e) →
  ∃ df, saved_tables (scraping_process sitemap website_name pages) = [df]
        ∧ NoDup df.*1
        ∧ (qualify website_name p, text) ∈ df.
Proof.
  intros Hj Htry Hlater.
  assert (Hpages : pages ≠ []) by (intros ->; done).
  exists (text_dict (scrape_loop website_name pages)). split; [|split].
  - rewrite scraping_process_pages, !saved_tables_app by done.
    rewrite persist_and_ingest_saved_tables. unfold scrape_loop at 1.
    by rewrite loop_saved_tables.
  - apply loop_text_dict_NoDup.
  - by apply loop_text_dict_last with j.
Qed.

(** A [helper] that gives, for the same link, a text that depends on the
    attempt. *)
Lemma scraping_process_last_text_wins_witness :
  let helper := {|
    streaming_response := unit;
    response_gen := λ _, [];
    query_weaviate := λ _ _ _, ();
    extract_document_urls := λ _, [];
    get_sitemap_attributes := λ _, ["/a"; "/a"];
    scrape_link := λ i item, Scraped {[ item := "version " +:+ str_of_nat i ]};
    save_to_gcloud := λ _ _, true;
    download_blob_from_gcloud := λ _, true;
    store_to_weaviate := λ _, [];
  |} in
  saved_tables (@scraping_process helper sample_runtime "https://a.io/sitemap.xml"
                  "a.io" ["/a"; "/a"])
  = [[("https://a.io/a", "version 2")]].
Proof.
  intros helper.
  destruct (@scraping_process_last_text_wins helper sample_runtime
              "https://a.io/sitemap.xml" "a.io" ["/a"; "/a"] 1 "/a" "version 2")
    as (df & Hsaved & _ & _).
  - reflexivity.
  - reflexivity.
  - intros [|[|[|j']]] p' Hlt Hj'; try lia; discriminate Hj'.
  - reflexivity.
Defined.

(** X16: [scrape_link] is handed one link per page, in the order of the
    sitemap, and never a relative one: a page that starts with a slash is
    handed over as ["https://"], the website name and the page; any
    other page as it is. *)
Theorem scrape_link_never_relative `{Helper} `{Runtime}
    (sitemap website_name : string) (pages : list string) :
  let calls := scrape_calls (scraping_process sitemap website_name pages) in
  length calls = length pages
  ∧ (∀ item, item ∈ calls → startswith item "/" = false)
  ∧ ∀ j page, pages !! j = Some page →
      calls !! j = Some (if startswith page "/"
                         then "https://" +:+ website_name +:+ page else page).
Proof.
  intros calls. subst calls. rewrite scraping_process_scrape_calls.
  split; [apply length_fmap|]. split.
  - intros item (page & -> & _)%list_elem_of_fmap. unfold qualify.
    by destruct (startswith page "/") eqn:Hpage.
  - intros j page Hj. by rewrite list_lookup_fmap, Hj.
Qed.

(** ** The dry run *)

(** X17: the dry run always returns a dictionary.  Its [status] is 0
    when the status of the sitemap is 0 and 1 for any other status; it
    has a [count], the number of rows of the sitemap, only when the
    status is 0; [nested_flag] and [message] are those of the sitemap;
    and it has no other key. *)
Theorem sitemap_response `{SitemapAttributes} (website : string) :
  ∃ normalised response,
    sitemap_url website = Return normalised
    ∧ sitemap website = Return response
    ∧ let attribute_dict := get_sitemap_attributes_dict normalised in
      response !! "status"
      = Some (JInt (if (status attribute_dict =? 0)%Z then 0 else 1))
      ∧ response !! "count"
        = (if (status attribute_dict =? 0)%Z
           then Some (JInt (Z.of_nat (length (df attribute_dict)))) else None)
      ∧ response !! "nested_flag" = Some (nested_flag attribute_dict)
      ∧ response !! "message" = Some (message attribute_dict)
      ∧ ∀ key, is_Some (response !! key) →
          key ∈ ["status"; "count"; "nested_flag"; "message"].
Proof.
  destruct (sitemap_url_total website) as [normalised Hurl].
  exists normalised. unfold sitemap. rewrite Hurl. cbn [mbind result_bind].
  destruct (status (get_sitemap_attributes_dict normalised) =? 0)%Z;
    eexists; (split; [done|]); (split; [done|]); cbv zeta;
    repeat split; try done; intros key [v Hv];
    repeat (apply lookup_insert_Some in Hv as [[<- _]|[_ Hv]];
            [rewrite !elem_of_cons; tauto|]);
    by rewrite lookup_empty in Hv.
Qed.

(** X18: when the dry run of a website reports a [count], a scrape of
    the same website (the sitemap being read the same) returns a stream
    and hands exactly that number of links to [scrape_link]. *)
Theorem sitemap_count_is_scrape_total `{SitemapAttributes} `{Runtime}
    (website : string) (response : gmap string json) (count : Z)
    (data : gmap string string) :
  sitemap website = Return response →
  response !! "count" = Some (JInt count) →
  data !! "text" = Some website →
  ∃ run, scrape_sitemap data = Return run
         ∧ Z.of_nat (length (scrape_calls run)) = count.
Proof.
  intros Hdry Hcount Htext.
  destruct (scrape_sitemap_streams data website Htext)
    as (normalised & website_name & Hurl & _ & ->).
  eexists. split; [done|].
  rewrite scraping_process_scrape_calls, length_fmap.
  rewrite <-get_sitemap_attributes_df.
  unfold sitemap in Hdry. rewrite Hurl in Hdry. cbn [mbind result_bind] in Hdry.
  destruct (status (get_sitemap_attributes_dict normalised) =? 0)%Z;
    injection Hdry as <-.
  - rewrite lookup_insert_ne, lookup_insert_ne, lookup_insert_eq in Hcount by done.
    by injection Hcount.
  - rewrite !lookup_insert_ne, lookup_empty in Hcount by done. done.
Qed.

Lemma sitemap_count_is_scrape_total_witness :
  ∃ run, @scrape_sitemap (sample_helper sample_pages 0 true true) sample_runtime
           {[ "text" := "a.io" ]} = Return run
         ∧ Z.of_nat (length (scrape_calls run)) = 3%Z.
Proof.
  apply (@sitemap_count_is_scrape_total _ (sample_attributes sample_pages 0)
           sample_runtime "a.io"
           {[ "message" := JStr "Processed sitemap"; "nested_flag" := JInt 0;
              "count" := JInt 3; "status" := JInt 0 ]}).
  - reflexivity.
  - reflexivity.
  - reflexivity.
Defined.

(** ** A website given with the scheme [http://] *)

Lemma sitemap_url_extends (website : string) :
  ∃ suffix,
    sitemap_url website
    = Return ((if str_in "https://" website then website
               else "https://" +:+ website) +:+ suffix).
Proof.
  rewrite sitemap_url_second_step. cbv zeta.
  set (s := if str_in "https://" website then website else "https://" +:+ website).
  destruct (str_in "sitemap.xml" s).
  - exists EmptyString. by rewrite string_app_nil_r.
  - destruct (ends_with_slash s); by eexists.
Qed.

(** X19: a website written with [http://] (and without ["https://"]
    anywhere) is not recognised as having a scheme: ["https://"] is put
    before it, and the scrape handler takes ["http:"] as the website
    name, so that relative links of the sitemap are handed to
    [scrape_link] as ["https://http:"] followed by the link. *)
Theorem scrape_sitemap_http_scheme `{Helper} `{Runtime} (rest : string)
    (data : gmap string string) :
  str_in "https://" ("http://" +:+ rest) = false →
  data !! "text" = Some ("http://" +:+ rest) →
  ∃ normalised,
    sitemap_url ("http://" +:+ rest) = Return normalised
    ∧ String.prefix "https://http://" normalised = true
    ∧ scrape_sitemap data
      = Return (scraping_process normalised "http:" (get_sitemap_attributes normalised))
    ∧ ∀ page, startswith page "/" = true →
        qualify "http:" page = "https://http:" +:+ page.
Proof.
  intros Hscheme Htext.
  destruct (sitemap_url_extends ("http://" +:+ rest)) as [suffix Hurl].
  rewrite Hscheme in Hurl. rewrite !string_app_assoc in Hurl.
  eexists. split; [exact Hurl|].
  split; [exact (prefix_self_app "https://http://" (rest +:+ suffix))|]. split.
  - unfold scrape_sitemap, list_index. rewrite Htext, Hurl.
    cbn [mbind result_bind].
    change ("https://" +:+ "http://" +:+ rest +:+ suffix)
      with ("https:" +:+ String "/" (EmptyString +:+ String "/"
              ("http:" +:+ String "/" (String "/" (rest +:+ suffix))))).
    by rewrite !split_slash_app_slash.
  - intros page Hpage. unfold qualify. by rewrite Hpage.
Qed.

Lemma scrape_sitemap_http_scheme_witness :
  scrape_calls
    match @scrape_sitemap (sample_helper sample_pages 0 true true) sample_runtime
            {[ "text" := "http://a.io" ]} with
    | Return run => run
    | Raise _ => []
    end
  = ["https://a.io/1"; "https://http:/2"; "https://a.io/3"].
Proof.
  destruct (@scrape_sitemap_http_scheme (sample_helper sample_pages 0 true true)
              sample_runtime "a.io" {[ "text" := "http://a.io" ]})
    as (normalised & _ & _ & -> & _).
  - reflexivity.
  - reflexivity.
  - rewrite scraping_process_scrape_calls. reflexivity.
Defined.
